(** * Transaction reconciliation: the upload normaliser and the matching engine

    A shallow embedding of [handleFileUpload] and [performReconciliation]
    of src/components/ReconciliationTool.jsx (the older copy of the
    component, without the result animation, has the same two functions).

    JavaScript numbers are IEEE-754 binary64 values: they are modelled by
    the primitive [float] type, so that [Math.abs(a - b) > 0.01] is
    evaluated exactly as the browser evaluates it.  [Map] objects keyed by
    the reference string are [gmap string _].  Arrays filled with [push]
    are lists extended on the right. *)

From Stdlib Require Import Floats Ascii ZArith.
From stdpp Require Import gmap strings list.

Set Warnings "-inexact-float".
Local Open Scope string_scope.

(** ** Cell values

    PapaParse runs with [header: true] and [dynamicTyping: true]: every row
    is an object from header names to cells, and a cell is [null] (empty
    field), a boolean, a number, a string, or an object (a [Date] for a
    field in ISO date form).  Reading a column that the row does not have
    gives [undefined]. *)

Inductive JsValue : Type :=
  | JsUndefined
  | JsNull
  | JsBool (b : bool)
  | JsNumber (x : float)
  | JsString (s : string)
  | JsObject (rendering : string).   (* carried with what String(_) prints *)

(** A number is falsy when it is [+0], [-0] or [NaN]. *)
Definition number_truthy (x : float) : bool := negb (is_zero x || is_nan x).

(** ToBoolean, the test behind [v ? _ : _], [v || _], [v && _] and
    [filter(v => v)]. *)
Definition truthy (v : JsValue) : bool :=
  match v with
  | JsUndefined | JsNull => false
  | JsBool b => b
  | JsNumber x => number_truthy x
  | JsString s => if decide (s = "") then false else true
  | JsObject _ => true
  end.

(** The built-ins of the JavaScript runtime that rest on tables the
    component does not hold: [Number::toString] and the text scanner of
    [parseFloat], which work on the decimal rendering of a number, and
    [String.prototype.toLowerCase] on text with letters outside ASCII,
    which follows the Unicode case mappings of the runtime.  They are not
    code of the component and the development is parametric in them. *)
Class JsRuntime : Type := {
  Number_toString : float -> string;
  parseFloat_text : string -> float;
  String_toLowerCase : string -> string
}.

Section Normaliser.
Context `{JsRuntime}.

(** [String(v)]. *)
Definition String_of (v : JsValue) : string :=
  match v with
  | JsUndefined => "undefined"
  | JsNull => "null"
  | JsBool true => "true"
  | JsBool false => "false"
  | JsNumber x => Number_toString x
  | JsString s => s
  | JsObject rendering => rendering
  end.

(** [parseFloat(v)] converts its argument to a string and scans it. *)
Definition parseFloat (v : JsValue) : float := parseFloat_text (String_of v).
End Normaliser.

(** ** Strings

    A string holds the UTF-8 encoding of the JavaScript string (the text
    of a CSV file is decoded from UTF-8, so cells are well-formed Unicode
    text): equal strings have equal encodings and the empty string is the
    empty encoding.

    [trim] strips the WhiteSpace and LineTerminator code points of
    ECMAScript from both ends.  They are, with their encodings:
    U+0009 TAB, U+000A LF, U+000B VT, U+000C FF, U+000D CR, U+0020 SP
    (one byte each); U+00A0 (C2 A0); U+1680 (E1 9A 80); U+2000 to U+200A
    (E2 80 80 to E2 80 8A); U+2028 (E2 80 A8); U+2029 (E2 80 A9); U+202F
    (E2 80 AF); U+205F (E2 81 9F); U+3000 (E3 80 80); U+FEFF (EF BB BF). *)

(** The one-byte white space. *)
Definition is_ws (c : ascii) : bool :=
  let n := nat_of_ascii c in
  (n =? 9)%nat || (n =? 10)%nat || (n =? 11)%nat ||
  (n =? 12)%nat || (n =? 13)%nat || (n =? 32)%nat.

(** The two-byte white space: U+00A0. *)
Definition is_ws2 (c1 c2 : ascii) : bool :=
  (nat_of_ascii c1 =? 194)%nat && (nat_of_ascii c2 =? 160)%nat.

(** The three-byte white space: U+1680, U+2000 to U+200A, U+2028, U+2029,
    U+202F, U+205F, U+3000, U+FEFF. *)
Definition is_ws3 (c1 c2 c3 : ascii) : bool :=
  let n1 := nat_of_ascii c1 in
  let n2 := nat_of_ascii c2 in
  let n3 := nat_of_ascii c3 in
  (n1 =? 225)%nat && (n2 =? 154)%nat && (n3 =? 128)%nat
  || (n1 =? 226)%nat && (n2 =? 128)%nat &&
     ((128 <=? n3)%nat && (n3 <=? 138)%nat
      || (n3 =? 168)%nat || (n3 =? 169)%nat || (n3 =? 175)%nat)
  || (n1 =? 226)%nat && (n2 =? 129)%nat && (n3 =? 159)%nat
  || (n1 =? 227)%nat && (n2 =? 128)%nat && (n3 =? 128)%nat
  || (n1 =? 239)%nat && (n2 =? 187)%nat && (n3 =? 191)%nat.

(** The string after its first character, when that is white space. *)
Definition ws_prefix (s : string) : option string :=
  match s with
  | String c1 s1 =>
      if is_ws c1 then Some s1 else
      match s1 with
      | String c2 s2 =>
          if is_ws2 c1 c2 then Some s2 else
          match s2 with
          | String c3 s3 => if is_ws3 c1 c2 c3 then Some s3 else None
          | EmptyString => None
          end
      | EmptyString => None
      end
  | EmptyString => None
  end.

Fixpoint trimStart (s : string) : string :=
  match s with
  | String c1 s1 =>
      if is_ws c1 then trimStart s1 else
      match s1 with
      | String c2 s2 =>
          if is_ws2 c1 c2 then trimStart s2 else
          match s2 with
          | String c3 s3 => if is_ws3 c1 c2 c3 then trimStart s3 else s
          | EmptyString => s
          end
      | EmptyString => s
      end
  | EmptyString => EmptyString
  end.

(** A string made of white space only (possibly empty). *)
Fixpoint all_ws (s : string) : bool :=
  match s with
  | String c1 s1 =>
      if is_ws c1 then all_ws s1 else
      match s1 with
      | String c2 s2 =>
          if is_ws2 c1 c2 then all_ws s2 else
          match s2 with
          | String c3 s3 => is_ws3 c1 c2 c3 && all_ws s3
          | EmptyString => false
          end
      | EmptyString => false
      end
  | EmptyString => true
  end.

(** The string is cut where what is left is white space only. *)
Fixpoint trimEnd (s : string) : string :=
  match s with
  | EmptyString => EmptyString
  | String c s' => if all_ws s then EmptyString else String c (trimEnd s')
  end.

Definition trim (s : string) : string := trimEnd (trimStart s).

(** [toLowerCase] maps [A-Z] to [a-z] and leaves every other ASCII
    character and all white space as they are; no byte of the encoding of
    a character outside ASCII is in [A-Z].  That settles the strings made
    of ASCII characters and white space.  On any other string the result
    follows the case mappings of the runtime. *)

Definition lower_ascii (c : ascii) : ascii :=
  let n := nat_of_ascii c in
  if (65 <=? n)%nat && (n <=? 90)%nat then ascii_of_nat (n + 32) else c.

Fixpoint lower_ascii_string (s : string) : string :=
  match s with
  | EmptyString => EmptyString
  | String c s' => String (lower_ascii c) (lower_ascii_string s')
  end.

Definition is_ascii (c : ascii) : bool := (nat_of_ascii c <? 128)%nat.

(** A string made of ASCII characters and white space only. *)
Fixpoint plain (s : string) : bool :=
  match s with
  | String c1 s1 =>
      if is_ascii c1 then plain s1 else
      match s1 with
      | String c2 s2 =>
          if is_ws2 c1 c2 then plain s2 else
          match s2 with
          | String c3 s3 => is_ws3 c1 c2 c3 && plain s3
          | EmptyString => false
          end
      | EmptyString => false
      end
  | EmptyString => true
  end.

Section ToLowerCase.
Context `{JsRuntime}.

Definition toLowerCase (s : string) : string :=
  if plain s then lower_ascii_string s else String_toLowerCase s.
End ToLowerCase.

(** ** Rows and normalised records *)

(** A parsed CSV row: the object from header name to cell. *)
Definition get (row : gmap string JsValue) (column : string) : JsValue :=
  default JsUndefined (row !! column).

(** The record built by the object literal
    [{...row, transaction_reference: _, amount: _, status: _}]: the three
    computed properties, and every other column of the row untouched. *)
Record Row : Type := mkRow {
  transaction_reference : string;
  amount : option float;          (* number | null *)
  status : option string;         (* string | null *)
  columns : gmap string JsValue   (* the pass-through columns *)
}.

Section ProcessedData.
Context `{JsRuntime}.

(** The arrow function given to [results.data.map]. *)
Definition processRow (row : gmap string JsValue) : Row :=
  {| transaction_reference :=
       trim (String_of (if truthy (get row "transaction_reference")
                        then get row "transaction_reference"
                        else JsString ""));
     amount :=
       if truthy (get row "amount")
       then Some (parseFloat (get row "amount")) else None;
     status :=
       if truthy (get row "status")
       then Some (trim (toLowerCase (String_of (get row "status"))))
       else None;
     columns :=
       delete "transaction_reference" (delete "amount" (delete "status" row)) |}.

(** [.filter(row => row.transaction_reference)]: a string is truthy when
    it is not empty. *)
Definition has_reference (r : Row) : bool :=
  truthy (JsString (transaction_reference r)).

Definition processedData (data : list (gmap string JsValue)) : list Row :=
  List.filter has_reference (map processRow data).
End ProcessedData.

(** ** The matching engine (the body of [performReconciliation]) *)

Record MatchResult : Type := mkMatchResult {
  match_reference : string;       (* the property transaction_reference *)
  internal : Row;
  provider : Row;
  amountMatch : bool;
  statusMatch : bool
}.

Record Summary : Type := mkSummary {
  totalInternal : nat;
  totalProvider : nat;
  matchedCount : nat;
  internalOnlyCount : nat;
  providerOnlyCount : nat;
  amountMismatchCount : nat;
  statusMismatchCount : nat
}.

Record Results : Type := mkResults {
  matched : list MatchResult;
  internalOnly : list Row;
  providerOnly : list Row;
  amountMismatches : list MatchResult;
  statusMismatches : list MatchResult;
  summary : Summary
}.

(** [data.forEach(record => map.set(record.transaction_reference, record))]
    on a fresh [Map]. *)
Definition buildMap (data : list Row) : gmap string Row :=
  foldl (fun m record => <[transaction_reference record := record]> m) ∅ data.

(** The value of [matchResult.amountMatch] after the amount check: it
    starts [true] and is cleared when both amounts are not [null] and
    [Math.abs(a - b) > 0.01]. *)
Definition checkAmount (internalRecord providerRecord : Row) : bool :=
  match amount internalRecord, amount providerRecord with
  | Some a, Some b =>
      let amountDiff := abs (a - b) in
      if (0.01 <? amountDiff)%float then false else true
  | _, _ => true
  end.

(** The value of [matchResult.statusMatch] after the status check: the
    guard [internalRecord.status && providerRecord.status] wants both
    truthy, that is neither [null] nor the empty string. *)
Definition checkStatus (internalRecord providerRecord : Row) : bool :=
  match status internalRecord, status providerRecord with
  | Some s, Some t =>
      if truthy (JsString s) && truthy (JsString t)
      then (if decide (s = t) then true else false)
      else true
  | _, _ => true
  end.

(** The object [matchResult] as it stands at the end of a turn of the
    first loop: created with both flags [true], then run through the two
    checks. *)
Definition matchResultOf (internalRecord providerRecord : Row) : MatchResult :=
  {| match_reference := transaction_reference internalRecord;
     internal := internalRecord;
     provider := providerRecord;
     amountMatch := checkAmount internalRecord providerRecord;
     statusMatch := checkStatus internalRecord providerRecord |}.

(** The four arrays the first loop pushes on. *)
Record Classified : Type := mkClassified {
  acc_matched : list MatchResult;
  acc_internalOnly : list Row;
  acc_amountMismatches : list MatchResult;
  acc_statusMismatches : list MatchResult
}.

(** One turn of [internalData.forEach(internalRecord => ...)].  The object
    pushed on [amountMismatches] and on [statusMismatches] is the very
    object pushed on [matched] at the end of the turn, so all three arrays
    show its final flags. *)
Definition classifyInternal (providerMap : gmap string Row)
    (acc : Classified) (internalRecord : Row) : Classified :=
  let ref := transaction_reference internalRecord in
  match providerMap !! ref with
  | Some providerRecord =>
      let matchResult := matchResultOf internalRecord providerRecord in
      {| acc_matched := acc_matched acc ++ [matchResult];
         acc_internalOnly := acc_internalOnly acc;
         acc_amountMismatches :=
           if amountMatch matchResult then acc_amountMismatches acc
           else acc_amountMismatches acc ++ [matchResult];
         acc_statusMismatches :=
           if statusMatch matchResult then acc_statusMismatches acc
           else acc_statusMismatches acc ++ [matchResult] |}
  | None =>
      {| acc_matched := acc_matched acc;
         acc_internalOnly := acc_internalOnly acc ++ [internalRecord];
         acc_amountMismatches := acc_amountMismatches acc;
         acc_statusMismatches := acc_statusMismatches acc |}
  end.

(** One turn of [providerData.forEach(providerRecord => ...)]. *)
Definition classifyProvider (internalMap : gmap string Row)
    (providerOnly : list Row) (providerRecord : Row) : list Row :=
  let ref := transaction_reference providerRecord in
  match internalMap !! ref with
  | Some _ => providerOnly
  | None => providerOnly ++ [providerRecord]
  end.

(** The object given to [setReconciliationResults]. *)
Definition reconcile (internalData providerData : list Row) : Results :=
  let internalMap := buildMap internalData in
  let providerMap := buildMap providerData in
  let acc := foldl (classifyInternal providerMap)
                   (mkClassified [] [] [] []) internalData in
  let providerOnly := foldl (classifyProvider internalMap) [] providerData in
  {| matched := acc_matched acc;
     internalOnly := acc_internalOnly acc;
     providerOnly := providerOnly;
     amountMismatches := acc_amountMismatches acc;
     statusMismatches := acc_statusMismatches acc;
     summary :=
       {| totalInternal := length internalData;
          totalProvider := length providerData;
          matchedCount := length (acc_matched acc);
          internalOnlyCount := length (acc_internalOnly acc);
          providerOnlyCount := length providerOnly;
          amountMismatchCount := length (acc_amountMismatches acc);
          statusMismatchCount := length (acc_statusMismatches acc) |} |}.

(** ** The component state and its two handlers *)

(** The second argument of [handleFileUpload]: the callers pass the
    strings 'internal' and 'provider' and nothing else. *)
Inductive UploadType : Type := type_internal | type_provider.

Module UploadErrors.
Record t : Type := mk { internal : option string; provider : option string }.

(** [{ ...prev, [type]: value }] *)
Definition set (type : UploadType) (value : option string) (prev : t) : t :=
  match type with
  | type_internal => {| internal := value; provider := provider prev |}
  | type_provider => {| internal := internal prev; provider := value |}
  end.

Definition lookup (type : UploadType) (errors : t) : option string :=
  match type with
  | type_internal => internal errors
  | type_provider => provider errors
  end.
End UploadErrors.

(** A [File] handle, known by its name. *)
Record File : Type := mkFile { file_name : string }.

Record State : Type := mkState {
  internalFile : option File;
  providerFile : option File;
  internalData : list Row;
  providerData : list Row;
  reconciliationResults : option Results;
  isProcessing : bool;
  showResults : bool;
  uploadErrors : UploadErrors.t
}.

Definition setUploadErrors (f : UploadErrors.t -> UploadErrors.t) (st : State) : State :=
  {| internalFile := internalFile st; providerFile := providerFile st;
     internalData := internalData st; providerData := providerData st;
     reconciliationResults := reconciliationResults st;
     isProcessing := isProcessing st; showResults := showResults st;
     uploadErrors := f (uploadErrors st) |}.

(** [setInternalData(processedData); setInternalFile(file)] *)
Definition setInternal (processed : list Row) (file : File) (st : State) : State :=
  {| internalFile := Some file; providerFile := providerFile st;
     internalData := processed; providerData := providerData st;
     reconciliationResults := reconciliationResults st;
     isProcessing := isProcessing st; showResults := showResults st;
     uploadErrors := uploadErrors st |}.

(** [setProviderData(processedData); setProviderFile(file)] *)
Definition setProvider (processed : list Row) (file : File) (st : State) : State :=
  {| internalFile := internalFile st; providerFile := Some file;
     internalData := internalData st; providerData := processed;
     reconciliationResults := reconciliationResults st;
     isProcessing := isProcessing st; showResults := showResults st;
     uploadErrors := uploadErrors st |}.

(** What PapaParse hands to the callbacks. *)
Record ParseError : Type := mkParseError { message : string }.

Record ParseResults : Type := mkParseResults {
  data : list (gmap string JsValue);
  errors : list ParseError;
  meta_fields : option (list string)     (* results.meta.fields *)
}.

Inductive ParseOutcome : Type :=
  | parse_complete (results : ParseResults)      (* complete(results) runs *)
  | parse_error (error : ParseError).            (* error(error) runs *)

(** [list.join(', ')] *)
Fixpoint join (sep : string) (l : list string) : string :=
  match l with
  | [] => ""
  | [x] => x
  | x :: l' => x ++ sep ++ join sep l'
  end.

Definition requiredColumns : list string := ["transaction_reference"].

Section Handlers.
Context `{JsRuntime}.

(** The [complete] callback of [Papa.parse]. *)
Definition onComplete (file : File) (type : UploadType)
    (results : ParseResults) (st : State) : State :=
  match errors results with
  | e :: _ =>
      setUploadErrors
        (UploadErrors.set type (Some ("CSV parsing error: " ++ message e))) st
  | [] =>
      let headers := default [] (meta_fields results) in
      let missingColumns :=
        List.filter (fun col => negb (bool_decide (col ∈ headers)))
                    requiredColumns in
      match missingColumns with
      | _ :: _ =>
          setUploadErrors
            (UploadErrors.set type
               (Some ("Missing required columns: " ++ join ", " missingColumns)))
            st
      | [] =>
          let processed := processedData (data results) in
          match type with
          | type_internal => setInternal processed file st
          | type_provider => setProvider processed file st
          end
      end
  end.

(** The [error] callback of [Papa.parse]. *)
Definition onError (type : UploadType) (error : ParseError) (st : State) : State :=
  setUploadErrors
    (UploadErrors.set type (Some ("File reading error: " ++ message error))) st.

(** [handleFileUpload(file, type)], with the outcome of the parse it
    starts: no file, nothing happens; otherwise the error of this side is
    cleared and then one of the two callbacks runs. *)
Definition handleFileUpload (file : option File) (type : UploadType)
    (outcome : ParseOutcome) (st : State) : State :=
  match file with
  | None => st
  | Some f =>
      let st1 := setUploadErrors (UploadErrors.set type None) st in
      match outcome with
      | parse_complete results => onComplete f type results st1
      | parse_error error => onError type error st1
      end
  end.
End Handlers.

Definition setIsProcessing (b : bool) (st : State) : State :=
  {| internalFile := internalFile st; providerFile := providerFile st;
     internalData := internalData st; providerData := providerData st;
     reconciliationResults := reconciliationResults st;
     isProcessing := b; showResults := showResults st;
     uploadErrors := uploadErrors st |}.

Definition setShowResults (b : bool) (st : State) : State :=
  {| internalFile := internalFile st; providerFile := providerFile st;
     internalData := internalData st; providerData := providerData st;
     reconciliationResults := reconciliationResults st;
     isProcessing := isProcessing st; showResults := b;
     uploadErrors := uploadErrors st |}.

Definition setReconciliationResults (r : option Results) (st : State) : State :=
  {| internalFile := internalFile st; providerFile := providerFile st;
     internalData := internalData st; providerData := providerData st;
     reconciliationResults := r;
     isProcessing := isProcessing st; showResults := showResults st;
     uploadErrors := uploadErrors st |}.

(** [performReconciliation()], followed up to the moment the two timers it
    starts have fired.  The results are computed from the data the handler
    was called with. *)
Definition performReconciliation (st : State) : State :=
  if (length (internalData st) =? 0)%nat || (length (providerData st) =? 0)%nat
  then st
  else
    let results := reconcile (internalData st) (providerData st) in
    let st1 := setShowResults false (setIsProcessing true st) in
    (* first timer, 2000 ms *)
    let st2 := setIsProcessing false
                 (setReconciliationResults (Some results) st1) in
    (* second timer, 300 ms later *)
    setShowResults true st2.

(** The older copy of the component has no [showResults] and no timers:
    the same guard and the same computation, between
    [setIsProcessing(true)] and [setIsProcessing(false)]. *)
Definition performReconciliation_sync (st : State) : State :=
  if (length (internalData st) =? 0)%nat || (length (providerData st) =? 0)%nat
  then st
  else
    let results := reconcile (internalData st) (providerData st) in
    setIsProcessing false
      (setReconciliationResults (Some results) (setIsProcessing true st)).

(** The state of a freshly mounted component. *)
Definition initialState : State :=
  {| internalFile := None; providerFile := None;
     internalData := []; providerData := [];
     reconciliationResults := None;
     isProcessing := false; showResults := false;
     uploadErrors := {| UploadErrors.internal := None; UploadErrors.provider := None |} |}.

(** ** Vocabulary of the statements *)

(** The references of a side, in input order. *)
Definition references (data : list Row) : list string :=
  transaction_reference <$> data.

(** The records of a side that carry reference [k], in input order. *)
Definition with_reference (k : string) (data : list Row) : list Row :=
  filter (fun r => transaction_reference r = k) data.

(** The last record of a side that carries reference [k]. *)
Definition last_with_reference (k : string) (data : list Row) : option Row :=
  last (with_reference k data).

(** The references of [xs] that also occur in [ys], in the order of [xs]. *)
Definition shared (xs ys : list string) : list string :=
  filter (fun k => k ∈ ys) xs.

(** No reference that occurs on both sides occurs twice on either side. *)
Definition shared_references_unique (internalData providerData : list Row) : Prop :=
  NoDup (shared (references internalData) (references providerData)) /\
  NoDup (shared (references providerData) (references internalData)).

(** The not-a-number value, as [Number.isNaN] sees it. *)
Definition isNaN (x : float) : bool := is_nan x.

(** A cell is absent when the column is missing from the row, the field is
    empty ([null] under dynamic typing) or it is the empty string. *)
Definition absent (v : JsValue) : Prop :=
  v = JsUndefined \/ v = JsNull \/ v = JsString "".

(** The match object the first loop builds for an internal record, read
    off the provider input: the record is paired with the last provider
    record of its reference, if there is one. *)
Definition matchFor (providerData : list Row) (internalRecord : Row)
    : option MatchResult :=
  matchResultOf internalRecord <$>
    last_with_reference (transaction_reference internalRecord) providerData.

(** ** Data for the closed examples *)

(** A normalised record without pass-through columns. *)
Definition record (reference : string) (amt : option float)
    (st : option string) : Row :=
  {| transaction_reference := reference; amount := amt; status := st;
     columns := ∅ |}.

(** The state after two successful uploads. *)
Definition loaded (internalRows providerRows : list Row) : State :=
  {| internalFile := Some (mkFile "internal.csv");
     providerFile := Some (mkFile "provider.csv");
     internalData := internalRows; providerData := providerRows;
     reconciliationResults := None;
     isProcessing := false; showResults := false;
     uploadErrors := uploadErrors initialState |}.

(** A runtime for examples whose cells hold no number, no numeric text
    and no letter outside ASCII: scanning such text gives NaN, no number
    is ever printed and no case mapping of the runtime is consulted. *)
Definition text_runtime : JsRuntime :=
  {| Number_toString := fun _ => "NaN"; parseFloat_text := fun _ => nan;
     String_toLowerCase := fun s => s |}.

(** The no-break space U+00A0 and the ideographic space U+3000, in
    UTF-8. *)
Definition nbsp : string :=
  String (ascii_of_nat 194) (String (ascii_of_nat 160) EmptyString).

Definition ideographic_space : string :=
  String (ascii_of_nat 227)
    (String (ascii_of_nat 128) (String (ascii_of_nat 128) EmptyString)).

(** A one-column file without the reference header, as PapaParse reports
    it: the delimiter cannot be guessed from a single column, which is
    recorded in [errors]. *)
Definition single_column_parse : ParseResults :=
  {| data := [ {[ "id" := JsString "A" ]} ];
     errors := [ mkParseError
       "Unable to auto-detect delimiting character; defaulted to ','" ];
     meta_fields := Some ["id"] |}.

(** A file with the headers id and amount, parsed without errors. *)
Definition no_reference_parse : ParseResults :=
  {| data := [ {[ "id" := JsString "A"; "amount" := JsString "abc" ]} ];
     errors := [];
     meta_fields := Some ["id"; "amount"] |}.

(** The other input side. *)
Definition other (type : UploadType) : UploadType :=
  match type with
  | type_internal => type_provider
  | type_provider => type_internal
  end.

(** The row of the CSV line [TX1,0] under the headers
    transaction_reference and amount: dynamic typing makes the amount the
    number zero. *)
Definition zero_amount_row : gmap string JsValue :=
  {[ "transaction_reference" := JsString "TX1"; "amount" := JsNumber 0 ]}.

(** Two internal rows with the same reference against one provider row. *)
Definition duplicate_internal : State :=
  loaded [record "A" (Some 100%float) (Some "paid");
          record "A" (Some 250%float) (Some "paid")]
         [record "A" (Some 100%float) (Some "paid")].

(** A row whose status cell is two blanks. *)
Definition blank_status_row : gmap string JsValue :=
  {[ "transaction_reference" := JsString "TX1"; "status" := JsString "  " ]}.

(** One reference on both sides, with the given amounts and no status. *)
Definition amounts (a b : option float) : State :=
  loaded [record "A" a None] [record "A" b None].

(** Three parsed rows: a padded reference with a padded upper-case status,
    a blank reference, and a row without a reference. *)
Definition sample_rows : list (gmap string JsValue) :=
  [ {[ "transaction_reference" := JsString " TX1 "; "status" := JsString " PAID " ]};
    {[ "transaction_reference" := JsString "   "; "status" := JsString "paid" ]};
    {[ "amount" := JsString "abc" ]} ].

(** ** Reset *)

(** [resetReconciliation()]: every piece of state goes back to its first
    value except [isProcessing], which the function does not set. *)
Definition resetReconciliation (st : State) : State :=
  {| internalFile := None; providerFile := None;
     internalData := []; providerData := [];
     reconciliationResults := None;
     isProcessing := isProcessing st;
     showResults := false;
     uploadErrors :=
       {| UploadErrors.internal := None; UploadErrors.provider := None |} |}.

(** ** The rows of the matched export

    [exportToCSV(data, filename, type)] with [type === 'matched'] maps every
    match to a flat object and hands the array to [Papa.unparse]; in the
    other case the records are handed over as they are. *)

Record MatchedCsvRow : Type := mkMatchedCsvRow {
  csv_transaction_reference : string;
  internal_amount : JsValue;
  provider_amount : JsValue;
  internal_status : string;
  provider_status : string;
  amount_match : string;
  status_match : string
}.

(** [amount || '']: the number when it is truthy, the empty string
    otherwise. *)
Definition amountCell (a : option float) : JsValue :=
  match a with
  | Some x => if number_truthy x then JsNumber x else JsString ""
  | None => JsString ""
  end.

(** [status || '']. *)
Definition statusCell (s : option string) : string :=
  match s with
  | Some t => if truthy (JsString t) then t else ""
  | None => ""
  end.

(** [flag ? 'Yes' : 'No'] *)
Definition yesNo (flag : bool) : string := if flag then "Yes" else "No".

(** The arrow function given to [data.map] in the matched branch. *)
Definition matchedCsvRow (item : MatchResult) : MatchedCsvRow :=
  {| csv_transaction_reference := match_reference item;
     internal_amount := amountCell (amount (internal item));
     provider_amount := amountCell (amount (provider item));
     internal_status := statusCell (status (internal item));
     provider_status := statusCell (status (provider item));
     amount_match := yesNo (amountMatch item);
     status_match := yesNo (statusMatch item) |}.

Definition matchedCsvData (data : list MatchResult) : list MatchedCsvRow :=
  map matchedCsvRow data.

(** ** The component as an event loop

    The handlers do not run to completion in one go: [Papa.parse] calls
    back later, and [performReconciliation] leaves its work to two timers
    that nothing ever cancels.  A session is the state together with the
    parses and the timers still to come; an event is what the browser
    delivers next. *)

Inductive Timer : Type :=
  | results_timer (internalRows providerRows : list Row)
      (* the 2000 ms callback, closed over the data of the click *)
  | reveal_timer.
      (* the 300 ms callback, [setShowResults(true)] *)

Record Session : Type := mkSession {
  ui : State;
  parsing : list (File * UploadType);   (* parses started, not yet called back *)
  timers : list Timer                   (* timers started, not yet fired *)
}.

Inductive Event : Type :=
  | file_chosen (file : option File) (type : UploadType)
  | parse_finished (n : nat) (outcome : ParseOutcome)
  | reconcile_clicked
  | reset_clicked
  | timer_fired (n : nat).

(** The [disabled] attribute of the reconcile button. *)
Definition reconcile_disabled (st : State) : bool :=
  (length (internalData st) =? 0)%nat || (length (providerData st) =? 0)%nat
  || isProcessing st.

Section EventLoop.
Context `{JsRuntime}.

Definition handle (e : Event) (s : Session) : Session :=
  match e with
  | file_chosen None _ => s
  | file_chosen (Some f) type =>
      {| ui := setUploadErrors (UploadErrors.set type None) (ui s);
         parsing := parsing s ++ [(f, type)];
         timers := timers s |}
  | parse_finished n outcome =>
      match parsing s !! n with
      | None => s
      | Some (f, type) =>
          {| ui := match outcome with
                   | parse_complete results => onComplete f type results (ui s)
                   | parse_error error => onError type error (ui s)
                   end;
             parsing := delete n (parsing s);
             timers := timers s |}
      end
  | reconcile_clicked =>
      if reconcile_disabled (ui s) then s
      else if (length (internalData (ui s)) =? 0)%nat
              || (length (providerData (ui s)) =? 0)%nat then s
      else
        {| ui := setShowResults false (setIsProcessing true (ui s));
           parsing := parsing s;
           timers := timers s ++
             [results_timer (internalData (ui s)) (providerData (ui s))] |}
  | reset_clicked =>
      {| ui := resetReconciliation (ui s);
         parsing := parsing s; timers := timers s |}
  | timer_fired n =>
      match timers s !! n with
      | None => s
      | Some (results_timer internalRows providerRows) =>
          {| ui := setIsProcessing false
                     (setReconciliationResults
                        (Some (reconcile internalRows providerRows)) (ui s));
             parsing := parsing s;
             timers := delete n (timers s) ++ [reveal_timer] |}
      | Some reveal_timer =>
          {| ui := setShowResults true (ui s);
             parsing := parsing s;
             timers := delete n (timers s) |}
      end
  end.

Definition run (events : list Event) (s : Session) : Session :=
  foldl (fun s e => handle e s) s events.
End EventLoop.

(** A freshly mounted component. *)
Definition initialSession : Session :=
  {| ui := initialState; parsing := []; timers := [] |}.

(** A session at rest around a state. *)
Definition at_rest (st : State) : Session :=
  {| ui := st; parsing := []; timers := [] |}.

Definition is_results_timer (t : Timer) : bool :=
  match t with results_timer _ _ => true | reveal_timer => false end.

(** The runs in flight. *)
Definition runs_in_flight (s : Session) : nat :=
  length (List.filter is_results_timer (timers s)).

(** ** Vocabulary of the further statements *)

(** A string without a capital letter of ASCII. *)
Fixpoint no_upper (s : string) : bool :=
  match s with
  | EmptyString => true
  | String c s' =>
      negb ((65 <=? nat_of_ascii c)%nat && (nat_of_ascii c <=? 90)%nat)
      && no_upper s'
  end.

(** The data and the file of one side. *)
Definition dataOf (type : UploadType) (st : State) : list Row :=
  match type with
  | type_internal => internalData st
  | type_provider => providerData st
  end.

Definition fileOf (type : UploadType) (st : State) : option File :=
  match type with
  | type_internal => internalFile st
  | type_provider => providerFile st
  end.

(** A parse that passes both checks of the [complete] callback. *)
Definition accepted (results : ParseResults) : Prop :=
  errors results = [] /\
  "transaction_reference" ∈ default [] (meta_fields results).

(** Records that all carry a reference. *)
Definition clean (rows : list Row) : Prop :=
  forall r, r ∈ rows -> transaction_reference r <> "".

Definition usable (rows : list Row) : Prop := rows <> [] /\ clean rows.

Definition is_timer_event (e : Event) : bool :=
  match e with timer_fired _ => true | _ => false end.

(** What every session reached from a fresh component satisfies. *)
Definition session_ok (s : Session) : Prop :=
  runs_in_flight s = (if isProcessing (ui s) then 1 else 0) /\
  clean (internalData (ui s)) /\ clean (providerData (ui s)) /\
  (forall rowsI rowsP, results_timer rowsI rowsP ∈ timers s ->
     usable rowsI /\ usable rowsP) /\
  (forall r, reconciliationResults (ui s) = Some r ->
     exists rowsI rowsP, usable rowsI /\ usable rowsP /\
                         r = reconcile rowsI rowsP).

(** A parse of one row with the given reference and status. *)
Definition one_row_parse (reference st : string) : ParseResults :=
  {| data := [ {[ "transaction_reference" := JsString reference;
                  "status" := JsString st ]} ];
     errors := [];
     meta_fields := Some ["transaction_reference"; "status"] |}.

(** Both files are uploaded, the button is clicked and the first timer
    fires. *)
Definition sample_events : list Event :=
  [ file_chosen (Some (mkFile "internal.csv")) type_internal;
    parse_finished 0 (parse_complete (one_row_parse "TX1" "paid"));
    file_chosen (Some (mkFile "provider.csv")) type_provider;
    parse_finished 0 (parse_complete (one_row_parse "TX1" "PAID "));
    reconcile_clicked;
    timer_fired 0 ].

(** A provider side on which reference A comes twice. *)
Definition duplicate_provider : list Row :=
  [ record "A" (Some 100%float) (Some "pending");
    record "A" (Some 100%float) (Some "paid") ].

(** * Properties *)

(** ** The lookup maps: the last write wins *)

Lemma foldl_set_lookup (data : list Row) (m : gmap string Row) (k : string) :
  foldl (fun m record => <[transaction_reference record := record]> m) m data !! k
  = match last_with_reference k data with Some r => Some r | None => m !! k end.
Proof.
  unfold last_with_reference, with_reference.
  revert m. induction data as [|r data IH]; intros m; simpl; [done|].
  rewrite IH, filter_cons. case_decide as Hk.
  - rewrite last_cons. destruct (last _); [done|]. subst k. by rewrite lookup_insert_eq.
  - destruct (last _); [done|]. by rewrite lookup_insert_ne.
Qed.

Lemma buildMap_lookup (data : list Row) (k : string) :
  buildMap data !! k = last_with_reference k data.
Proof.
  unfold buildMap. rewrite foldl_set_lookup. by destruct (last_with_reference k data).
Qed.

Lemma last_with_reference_is_Some (data : list Row) (k : string) :
  is_Some (last_with_reference k data) <-> k ∈ references data.
Proof.
  unfold last_with_reference, with_reference, references.
  rewrite list_elem_of_fmap. split.
  - intros [r Hr]. apply last_Some_elem_of in Hr.
    apply list_elem_of_filter in Hr as [? ?]. eauto.
  - intros (r & -> & Hr).
    destruct (last _) eqn:E; [eauto|]. apply last_None in E.
    assert (r ∈ filter (fun r0 => transaction_reference r0 = transaction_reference r) data)
      by (apply list_elem_of_filter; done).
    rewrite E in *. set_solver.
Qed.

(** ** The two loops, as filters over the inputs *)

Lemma foldl_classifyInternal (providerData internalData : list Row) (acc : Classified) :
  foldl (classifyInternal (buildMap providerData)) acc internalData =
  {| acc_matched := acc_matched acc ++ omap (matchFor providerData) internalData;
     acc_internalOnly := acc_internalOnly acc ++
       filter (fun r => transaction_reference r ∉ references providerData) internalData;
     acc_amountMismatches := acc_amountMismatches acc ++
       filter (fun m => amountMatch m = false) (omap (matchFor providerData) internalData);
     acc_statusMismatches := acc_statusMismatches acc ++
       filter (fun m => statusMatch m = false) (omap (matchFor providerData) internalData) |}.
Proof.
  revert acc. induction internalData as [|r l IH]; intros acc.
  - simpl. rewrite !filter_nil, !app_nil_r. by destruct acc.
  - cbn [foldl]. rewrite IH. clear IH.
    assert (HM : omap (matchFor providerData) (r :: l) =
                 match matchFor providerData r with
                 | Some y => y :: omap (matchFor providerData) l
                 | None => omap (matchFor providerData) l
                 end) by done.
    rewrite HM. clear HM.
    generalize (omap (matchFor providerData) l). intros M.
    unfold classifyInternal, matchFor. rewrite buildMap_lookup, (filter_cons _ r).
    destruct (last_with_reference (transaction_reference r) providerData) as [p|] eqn:E.
    + rewrite decide_False.
      2:{ intros Hn. apply Hn, last_with_reference_is_Some. rewrite E. eauto. }
      cbn [fmap option_fmap option_map acc_matched acc_internalOnly
           acc_amountMismatches acc_statusMismatches]. rewrite !filter_cons.
      cbn [amountMatch statusMatch matchResultOf].
      destruct (checkAmount r p), (checkStatus r p);
        repeat case_decide; try done; by rewrite <- ?app_assoc.
    + rewrite decide_True.
      2:{ intros Hn. apply last_with_reference_is_Some in Hn. rewrite E in Hn. by destruct Hn. }
      cbn. by rewrite <- app_assoc.
Qed.

Lemma foldl_classifyProvider (internalData providerData : list Row) (acc : list Row) :
  foldl (classifyProvider (buildMap internalData)) acc providerData =
  (acc ++ filter (fun r => transaction_reference r ∉ references internalData) providerData)%list.
Proof.
  revert acc. induction providerData as [|r l IH]; intros acc; simpl.
  - by rewrite filter_nil, app_nil_r.
  - rewrite IH. unfold classifyProvider. rewrite buildMap_lookup, filter_cons.
    destruct (last_with_reference (transaction_reference r) internalData) eqn:E.
    + rewrite decide_False; [done|].
      intros Hn. apply Hn, last_with_reference_is_Some. rewrite E. eauto.
    + rewrite decide_True, <- app_assoc; [done|].
      intros Hn. apply last_with_reference_is_Some in Hn. rewrite E in Hn. by destruct Hn.
Qed.

Lemma reconcile_matched (I P : list Row) :
  matched (reconcile I P) = omap (matchFor P) I.
Proof. unfold reconcile. cbn [matched]. by rewrite foldl_classifyInternal. Qed.

Lemma reconcile_internalOnly (I P : list Row) :
  internalOnly (reconcile I P) =
  filter (fun r => transaction_reference r ∉ references P) I.
Proof. unfold reconcile. cbn [internalOnly]. by rewrite foldl_classifyInternal. Qed.

Lemma reconcile_providerOnly (I P : list Row) :
  providerOnly (reconcile I P) =
  filter (fun r => transaction_reference r ∉ references I) P.
Proof. unfold reconcile. cbn [providerOnly]. by rewrite foldl_classifyProvider. Qed.

Lemma reconcile_amountMismatches (I P : list Row) :
  amountMismatches (reconcile I P) =
  filter (fun m => amountMatch m = false) (matched (reconcile I P)).
Proof. unfold reconcile. cbn [amountMismatches matched]. by rewrite foldl_classifyInternal. Qed.

Lemma reconcile_statusMismatches (I P : list Row) :
  statusMismatches (reconcile I P) =
  filter (fun m => statusMatch m = false) (matched (reconcile I P)).
Proof. unfold reconcile. cbn [statusMismatches matched]. by rewrite foldl_classifyInternal. Qed.

Lemma reconcile_summary (I P : list Row) :
  summary (reconcile I P) =
  {| totalInternal := length I;
     totalProvider := length P;
     matchedCount := length (matched (reconcile I P));
     internalOnlyCount := length (internalOnly (reconcile I P));
     providerOnlyCount := length (providerOnly (reconcile I P));
     amountMismatchCount := length (amountMismatches (reconcile I P));
     statusMismatchCount := length (statusMismatches (reconcile I P)) |}.
Proof. done. Qed.

(** ** Counting *)

Lemma matchFor_is_Some (P : list Row) (r : Row) :
  is_Some (matchFor P r) <-> transaction_reference r ∈ references P.
Proof.
  unfold matchFor. rewrite fmap_is_Some. apply last_with_reference_is_Some.
Qed.

Lemma length_matches (I P : list Row) :
  length (omap (matchFor P) I) =
  length (shared (references I) (references P)).
Proof.
  unfold shared, references.
  induction I as [|r l IH]; [done|].
  rewrite fmap_cons, filter_cons. cbn [omap list_omap].
  destruct (matchFor P r) eqn:E.
  - rewrite decide_True; [by cbn; rewrite <- IH|].
    apply matchFor_is_Some. rewrite E; eauto.
  - rewrite decide_False; [done|].
    intros Hin. apply matchFor_is_Some in Hin. rewrite E in Hin. by destruct Hin.
Qed.

Lemma length_one_sided (xs ys : list Row) :
  length (filter (fun r => transaction_reference r ∉ references ys) xs) +
  length (shared (references xs) (references ys)) = length xs.
Proof.
  unfold shared. generalize (references ys). intros ks. unfold references.
  induction xs as [|r l IH]; [done|].
  rewrite fmap_cons, !filter_cons.
  destruct (decide (transaction_reference r ∈ ks)).
  - rewrite decide_False by tauto. cbn. lia.
  - rewrite decide_True by done. cbn. lia.
Qed.

Lemma shared_sym_length (xs ys : list string) :
  NoDup (shared xs ys) -> NoDup (shared ys xs) ->
  length (shared xs ys) = length (shared ys xs).
Proof.
  intros Hx Hy. apply Permutation_length, NoDup_Permutation; [done..|].
  intros k. unfold shared. rewrite !list_elem_of_filter. tauto.
Qed.

(** ** Not-a-number amounts through the tolerance test *)

Lemma SFcompare_refl (f : spec_float) :
  f <> S754_nan -> SFcompare f f = Some Eq.
Proof.
  destruct f as [s|s| |s m e]; intros Hf; try done; simpl.
  - by destruct s.
  - rewrite Z.compare_refl, Pos.compare_cont_refl. by destruct s.
Qed.

Lemma isNaN_Prim2SF (x : float) : isNaN x = true -> Prim2SF x = S754_nan.
Proof.
  unfold isNaN, is_nan. rewrite FloatAxioms.eqb_spec. unfold SFeqb. intros Hx.
  destruct (Prim2SF x) eqn:E; try done;
    rewrite SFcompare_refl in Hx; done.
Qed.

Lemma SFsub_nan_r (f : spec_float) : SF64sub f S754_nan = S754_nan.
Proof. by destruct f. Qed.

Lemma abs_sub_nan_l (x y : float) :
  isNaN x = true -> Prim2SF (abs (x - y)) = S754_nan.
Proof.
  intros Hx. rewrite FloatAxioms.abs_spec, FloatAxioms.sub_spec, (isNaN_Prim2SF x Hx). done.
Qed.

Lemma abs_sub_nan_r (x y : float) :
  isNaN y = true -> Prim2SF (abs (x - y)) = S754_nan.
Proof.
  intros Hy. rewrite FloatAxioms.abs_spec, FloatAxioms.sub_spec, (isNaN_Prim2SF y Hy), SFsub_nan_r. done.
Qed.

Lemma ltb_nan_r (t x : float) : Prim2SF x = S754_nan -> (t <? x)%float = false.
Proof.
  intros Hx. rewrite FloatAxioms.ltb_spec, Hx. unfold SFltb. by destruct (Prim2SF t).
Qed.

Lemma checkAmount_NaN (r p : Row) (x : float) :
  isNaN x = true -> amount r = Some x \/ amount p = Some x -> checkAmount r p = true.
Proof.
  intros Hx [Hr|Hp]; unfold checkAmount.
  - rewrite Hr. destruct (amount p) as [b|]; [|done].
    cbv zeta. by rewrite (ltb_nan_r _ _ (abs_sub_nan_l x b Hx)).
  - rewrite Hp. destruct (amount r) as [a|]; [|done].
    cbv zeta. by rewrite (ltb_nan_r _ _ (abs_sub_nan_r a x Hx)).
Qed.

(** ** What reaches the match flags *)

Lemma checkAmount_spec (r p : Row) (a b : float) :
  amount r = Some a -> amount p = Some b ->
  checkAmount r p = negb (0.01 <? abs (a - b))%float.
Proof.
  intros Ha Hb. unfold checkAmount. rewrite Ha, Hb. cbv zeta.
  by destruct (_ <? _)%float.
Qed.

Lemma checkAmount_null (r p : Row) :
  amount r = None \/ amount p = None -> checkAmount r p = true.
Proof. unfold checkAmount. intros [-> | ->]; [done|]. by destruct (amount r). Qed.

Lemma checkStatus_null (r p : Row) :
  status r = None \/ status p = None -> checkStatus r p = true.
Proof. unfold checkStatus. intros [-> | ->]; [done|]. by destruct (status r). Qed.

Lemma checkStatus_empty (r p : Row) :
  status r = Some "" \/ status p = Some "" -> checkStatus r p = true.
Proof.
  unfold checkStatus. intros [-> | ->].
  - by destruct (status p).
  - destruct (status r); [|done]. cbn. by rewrite andb_false_r.
Qed.

Lemma matched_inv (I P : list Row) (m : MatchResult) :
  m ∈ matched (reconcile I P) <->
  exists r p, r ∈ I /\
    last_with_reference (transaction_reference r) P = Some p /\
    m = matchResultOf r p.
Proof.
  rewrite reconcile_matched, list_elem_of_omap. unfold matchFor. split.
  - intros (r & Hr & Hm). apply fmap_Some in Hm as (p & Hp & ->). eauto.
  - intros (r & p & Hr & Hp & ->). exists r. by rewrite Hp.
Qed.

Lemma matched_flags (I P : list Row) (m : MatchResult) :
  m ∈ matched (reconcile I P) ->
  amountMatch m = checkAmount (internal m) (provider m) /\
  statusMatch m = checkStatus (internal m) (provider m).
Proof. intros (r & p & _ & _ & ->)%matched_inv. done. Qed.

Lemma amountMismatches_spec (I P : list Row) (m : MatchResult) :
  m ∈ amountMismatches (reconcile I P) <->
  m ∈ matched (reconcile I P) /\ amountMatch m = false.
Proof. rewrite reconcile_amountMismatches, list_elem_of_filter. tauto. Qed.

Lemma statusMismatches_spec (I P : list Row) (m : MatchResult) :
  m ∈ statusMismatches (reconcile I P) <->
  m ∈ matched (reconcile I P) /\ statusMatch m = false.
Proof. rewrite reconcile_statusMismatches, list_elem_of_filter. tauto. Qed.

(** ** The handlers on the state *)

Lemma nonempty_length {A} (l : list A) : l <> [] -> (length l =? 0)%nat = false.
Proof. by destruct l. Qed.

Lemma performReconciliation_results (st : State) :
  internalData st <> [] -> providerData st <> [] ->
  reconciliationResults (performReconciliation st) =
    Some (reconcile (internalData st) (providerData st)) /\
  reconciliationResults (performReconciliation_sync st) =
    Some (reconcile (internalData st) (providerData st)).
Proof.
  intros HI HP. unfold performReconciliation, performReconciliation_sync.
  by rewrite (nonempty_length _ HI), (nonempty_length _ HP).
Qed.

(** Opens a goal about the result a run stores. *)
Ltac stored_result HI HP :=
  destruct (performReconciliation_results _ HI HP) as [-> _];
  eexists; split; [done|].

Lemma set_set (type : UploadType) (v w : option string) (e : UploadErrors.t) :
  UploadErrors.set type v (UploadErrors.set type w e) = UploadErrors.set type v e.
Proof. by destruct type. Qed.

Lemma lookup_set (type : UploadType) (v : option string) (e : UploadErrors.t) :
  UploadErrors.lookup type (UploadErrors.set type v e) = v.
Proof. by destruct type. Qed.

Lemma lookup_set_other (type : UploadType) (v : option string) (e : UploadErrors.t) :
  UploadErrors.lookup (other type) (UploadErrors.set type v e) =
  UploadErrors.lookup (other type) e.
Proof. by destruct type. Qed.

Lemma setUploadErrors_twice (f g : UploadErrors.t -> UploadErrors.t) (st : State) :
  setUploadErrors f (setUploadErrors g st) = setUploadErrors (fun e => f (g e)) st.
Proof. done. Qed.

Lemma missing_header_filter (headers : list string) :
  "transaction_reference" ∉ headers ->
  List.filter (fun col => negb (bool_decide (col ∈ headers))) requiredColumns
  = ["transaction_reference"].
Proof. intros Hn. cbn. by rewrite bool_decide_eq_false_2. Qed.

(** ** Strings of white space

    [trimStart] and [all_ws] go through a string one character at a time,
    a character being one, two or three bytes long; [ws_ind] is the
    induction that follows them. *)

Lemma ws_prefix_length (s r : string) :
  ws_prefix s = Some r -> String.length r < String.length s.
Proof.
  destruct s as [|c1 s1]; [done|]. cbn [ws_prefix].
  destruct (is_ws c1); [intros [= <-]; cbn; lia|].
  destruct s1 as [|c2 s2]; [done|].
  destruct (is_ws2 c1 c2); [intros [= <-]; cbn; lia|].
  destruct s2 as [|c3 s3]; [done|].
  destruct (is_ws3 c1 c2 c3); [intros [= <-]; cbn; lia|done].
Qed.

Lemma trimStart_eq (s : string) :
  trimStart s = match ws_prefix s with Some r => trimStart r | None => s end.
Proof.
  destruct s as [|c1 s1]; [done|]. cbn [trimStart ws_prefix].
  destruct (is_ws c1); [done|]. destruct s1 as [|c2 s2]; [done|].
  destruct (is_ws2 c1 c2); [done|]. destruct s2 as [|c3 s3]; [done|].
  by destruct (is_ws3 c1 c2 c3).
Qed.

Lemma all_ws_eq (s : string) :
  all_ws s = match s with
             | EmptyString => true
             | _ => match ws_prefix s with Some r => all_ws r | None => false end
             end.
Proof.
  destruct s as [|c1 s1]; [done|]. cbn [all_ws ws_prefix].
  destruct (is_ws c1); [done|]. destruct s1 as [|c2 s2]; [done|].
  destruct (is_ws2 c1 c2); [done|]. destruct s2 as [|c3 s3]; [done|].
  by destruct (is_ws3 c1 c2 c3).
Qed.

Lemma ws_ind (P : string -> Prop) :
  P "" ->
  (forall s r, ws_prefix s = Some r -> P r -> P s) ->
  (forall s, s <> "" -> ws_prefix s = None -> P s) ->
  forall s, P s.
Proof.
  intros H0 Hstep Hstop s.
  remember (String.length s) as n eqn:Hn. revert s Hn.
  induction n as [n IH] using lt_wf_ind. intros s ->.
  destruct (ws_prefix s) as [r|] eqn:E.
  - apply (Hstep s r E). apply (IH (String.length r)); [|done].
    by apply ws_prefix_length.
  - destruct s; [done|]. by apply Hstop.
Qed.

Lemma all_ws_step (s r : string) : ws_prefix s = Some r -> all_ws s = all_ws r.
Proof. intros E. rewrite (all_ws_eq s), E. by destruct s. Qed.

Lemma all_ws_stop (s : string) : s <> "" -> ws_prefix s = None -> all_ws s = false.
Proof. intros Hs E. rewrite (all_ws_eq s), E. by destruct s. Qed.

Lemma trimStart_empty (s : string) : trimStart s = "" <-> all_ws s = true.
Proof.
  induction s as [|s r E IH|s Hs E] using ws_ind; [done|..].
  - by rewrite trimStart_eq, E, (all_ws_step s r E).
  - rewrite trimStart_eq, E, (all_ws_stop s Hs E). split; done.
Qed.

Lemma all_ws_trimStart (s : string) : all_ws (trimStart s) = all_ws s.
Proof.
  induction s as [|s r E IH|s Hs E] using ws_ind; [done|..].
  - by rewrite trimStart_eq, E, (all_ws_step s r E).
  - by rewrite trimStart_eq, E.
Qed.

Lemma trimEnd_empty (s : string) : trimEnd s = "" <-> all_ws s = true.
Proof. destruct s as [|c s]; [done|]. cbn [trimEnd]. by destruct (all_ws _). Qed.

Lemma trim_empty (s : string) : trim s = "" <-> all_ws s = true.
Proof. unfold trim. by rewrite trimEnd_empty, all_ws_trimStart. Qed.

Lemma trim_all_ws (s : string) : all_ws s = true -> trim s = "".
Proof. apply trim_empty. Qed.

Lemma trimStart_clean (s : string) : ws_prefix (trimStart s) = None.
Proof.
  induction s as [|s r E IH|s Hs E] using ws_ind; [done|..].
  - by rewrite trimStart_eq, E.
  - by rewrite trimStart_eq, E.
Qed.

Lemma trimStart_id (s : string) : ws_prefix s = None -> trimStart s = s.
Proof. intros E. by rewrite trimStart_eq, E. Qed.

Lemma ws_prefix_app (p r w : string) :
  ws_prefix p = Some r -> ws_prefix (p ++ w) = Some (r ++ w).
Proof.
  destruct p as [|c1 s1]; [done|]. simpl.
  destruct (is_ws c1); [by intros [= <-]|].
  destruct s1 as [|c2 s2]; [done|]. simpl.
  destruct (is_ws2 c1 c2); [by intros [= <-]|].
  destruct s2 as [|c3 s3]; [done|]. simpl.
  destruct (is_ws3 c1 c2 c3); [by intros [= <-]|done].
Qed.

Lemma all_ws_app (x w : string) : all_ws x = true -> all_ws (x ++ w) = all_ws w.
Proof.
  induction x as [|s r E IH|s Hs E] using ws_ind; [done|..].
  - rewrite (all_ws_step s r E). intros Hr.
    rewrite (all_ws_step _ _ (ws_prefix_app _ _ w E)). by apply IH.
  - by rewrite (all_ws_stop s Hs E).
Qed.

Lemma trimEnd_split (s : string) :
  exists w, s = trimEnd s ++ w /\ all_ws w = true.
Proof.
  induction s as [|c s (w & Hw & Hws)]; [by exists ""|].
  cbn [trimEnd]. destruct (all_ws (String c s)) eqn:E.
  - by exists (String c s).
  - exists w. split; [|done]. change (String c s = String c (trimEnd s ++ w)).
    by f_equal.
Qed.

Lemma trimEnd_idem (s : string) : trimEnd (trimEnd s) = trimEnd s.
Proof.
  induction s as [|c s IH]; [done|].
  cbn [trimEnd]. destruct (all_ws (String c s)) eqn:E; [done|].
  cbn [trimEnd]. rewrite IH.
  destruct (all_ws (String c (trimEnd s))) eqn:E'; [|done].
  destruct (trimEnd_split s) as (w & Hw & Hws).
  assert (all_ws (String c s) = true); [|congruence].
  rewrite Hw. change (String c (trimEnd s ++ w)) with (String c (trimEnd s) ++ w).
  by rewrite (all_ws_app _ w E').
Qed.

Lemma trimEnd_clean (s : string) :
  ws_prefix s = None -> ws_prefix (trimEnd s) = None.
Proof.
  intros E. destruct (ws_prefix (trimEnd s)) as [r|] eqn:E'; [|done].
  destruct (trimEnd_split s) as (w & Hw & _).
  apply (ws_prefix_app _ _ w) in E'. rewrite <- Hw in E'. congruence.
Qed.

Lemma trim_idem (s : string) : trim (trim s) = trim s.
Proof.
  unfold trim.
  rewrite (trimStart_id (trimEnd (trimStart s)))
    by apply trimEnd_clean, trimStart_clean.
  apply trimEnd_idem.
Qed.

Lemma lower_ascii_ws (c : ascii) : is_ws c = true -> lower_ascii c = c.
Proof. destruct c as [[] [] [] [] [] [] [] []]; done. Qed.

Lemma lower_ascii_high (c : ascii) : is_ascii c = false -> lower_ascii c = c.
Proof. destruct c as [[] [] [] [] [] [] [] []]; done. Qed.

Lemma is_ws_ascii (c : ascii) : is_ws c = true -> is_ascii c = true.
Proof. destruct c as [[] [] [] [] [] [] [] []]; done. Qed.

Lemma is_ws2_high (c1 c2 : ascii) :
  is_ws2 c1 c2 = true -> is_ascii c1 = false /\ is_ascii c2 = false.
Proof.
  unfold is_ws2, is_ascii. intros [H1 H2]%andb_prop.
  apply Nat.eqb_eq in H1, H2. rewrite H1, H2. done.
Qed.

Ltac bool_facts :=
  repeat match goal with
         | H : (_ || _) = true |- _ => apply orb_prop in H as [H|H]
         | H : (_ && _) = true |- _ => apply andb_prop in H as [? ?]
         | H : (_ =? _)%nat = true |- _ => apply Nat.eqb_eq in H
         | H : (_ <=? _)%nat = true |- _ => apply Nat.leb_le in H
         end.

Lemma is_ws3_high (c1 c2 c3 : ascii) :
  is_ws3 c1 c2 c3 = true ->
  is_ascii c1 = false /\ is_ascii c2 = false /\ is_ascii c3 = false.
Proof.
  unfold is_ws3, is_ascii. cbv zeta. intros H.
  bool_facts; repeat split; apply Nat.ltb_ge; lia.
Qed.

Lemma ws_prefix_plain (s r : string) : ws_prefix s = Some r -> plain s = plain r.
Proof.
  destruct s as [|c1 s1]; [done|]. cbn [ws_prefix plain].
  destruct (is_ws c1) eqn:E1.
  { intros [= <-]. by rewrite (is_ws_ascii c1 E1). }
  destruct s1 as [|c2 s2]; [done|].
  destruct (is_ws2 c1 c2) eqn:E2.
  { intros [= <-]. by destruct (is_ws2_high c1 c2 E2) as [-> _]. }
  destruct s2 as [|c3 s3]; [done|].
  destruct (is_ws3 c1 c2 c3) eqn:E3; [|done].
  intros [= <-]. by destruct (is_ws3_high c1 c2 c3 E3) as (-> & _).
Qed.

Lemma ws_prefix_lower (s r : string) :
  ws_prefix s = Some r -> lower_ascii_string r = r -> lower_ascii_string s = s.
Proof.
  destruct s as [|c1 s1]; [done|]. cbn [ws_prefix].
  destruct (is_ws c1) eqn:E1.
  { intros [= <-] Hr. cbn. by rewrite (lower_ascii_ws c1 E1), Hr. }
  destruct s1 as [|c2 s2]; [done|].
  destruct (is_ws2 c1 c2) eqn:E2.
  { intros [= <-] Hr. destruct (is_ws2_high c1 c2 E2) as [H1 H2].
    cbn. by rewrite (lower_ascii_high c1 H1), (lower_ascii_high c2 H2), Hr. }
  destruct s2 as [|c3 s3]; [done|].
  destruct (is_ws3 c1 c2 c3) eqn:E3; [|done].
  intros [= <-] Hr. destruct (is_ws3_high c1 c2 c3 E3) as (H1 & H2 & H3).
  cbn. by rewrite (lower_ascii_high c1 H1), (lower_ascii_high c2 H2),
    (lower_ascii_high c3 H3), Hr.
Qed.

Lemma all_ws_plain (s : string) : all_ws s = true -> plain s = true.
Proof.
  induction s as [|s r E IH|s Hs E] using ws_ind; [done|..].
  - rewrite (all_ws_step s r E), (ws_prefix_plain s r E). exact IH.
  - by rewrite (all_ws_stop s Hs E).
Qed.

Lemma all_ws_lower (s : string) : all_ws s = true -> lower_ascii_string s = s.
Proof.
  induction s as [|s r E IH|s Hs E] using ws_ind; [done|..].
  - rewrite (all_ws_step s r E). intros Hr. by apply (ws_prefix_lower s r E), IH.
  - by rewrite (all_ws_stop s Hs E).
Qed.

Lemma toLowerCase_all_ws `{JsRuntime} (s : string) :
  all_ws s = true -> toLowerCase s = s.
Proof.
  intros Hs. unfold toLowerCase. rewrite (all_ws_plain s Hs).
  by apply all_ws_lower.
Qed.

Lemma lower_ascii_no_upper (c : ascii) :
  negb ((65 <=? nat_of_ascii (lower_ascii c))%nat
        && (nat_of_ascii (lower_ascii c) <=? 90)%nat) = true.
Proof. destruct c as [[] [] [] [] [] [] [] []]; done. Qed.

Lemma no_upper_lower (s : string) : no_upper (lower_ascii_string s) = true.
Proof.
  induction s as [|c s IH]; [done|]. cbn [lower_ascii_string no_upper].
  by rewrite lower_ascii_no_upper, IH.
Qed.

Lemma no_upper_ws_prefix (s r : string) :
  ws_prefix s = Some r -> no_upper s = true -> no_upper r = true.
Proof.
  destruct s as [|c1 s1]; [done|]. cbn [ws_prefix].
  destruct (is_ws c1).
  { intros [= <-]. cbn [no_upper]. by intros [_ ?]%andb_prop. }
  destruct s1 as [|c2 s2]; [done|].
  destruct (is_ws2 c1 c2).
  { intros [= <-]. cbn [no_upper]. by intros [_ [_ ?]%andb_prop]%andb_prop. }
  destruct s2 as [|c3 s3]; [done|].
  destruct (is_ws3 c1 c2 c3); [|done].
  intros [= <-]. cbn [no_upper].
  by intros [_ [_ [_ ?]%andb_prop]%andb_prop]%andb_prop.
Qed.

Lemma no_upper_trimStart (s : string) :
  no_upper s = true -> no_upper (trimStart s) = true.
Proof.
  induction s as [|s r E IH|s Hs E] using ws_ind; [done|..].
  - intros Hs. rewrite trimStart_eq, E. by apply IH, (no_upper_ws_prefix s r E).
  - by rewrite trimStart_eq, E.
Qed.

Lemma no_upper_trimEnd (s : string) :
  no_upper s = true -> no_upper (trimEnd s) = true.
Proof.
  induction s as [|c s IH]; [done|]. cbn [trimEnd].
  destruct (all_ws (String c s)); [done|]. cbn [no_upper].
  intros [Hc Hs]%andb_prop. by rewrite Hc, (IH Hs).
Qed.

Lemma no_upper_trim (s : string) : no_upper s = true -> no_upper (trim s) = true.
Proof. intros Hs. by apply no_upper_trimEnd, no_upper_trimStart. Qed.

(** ** Which cells are stored as [null] *)

Lemma truthy_false (v : JsValue) :
  truthy v = false <->
  absent v \/ v = JsBool false \/
  exists x, v = JsNumber x /\ (is_zero x = true \/ is_nan x = true).
Proof.
  unfold absent. split.
  - destruct v as [| |[]|x|s|o]; cbn; try done; try tauto.
    + unfold number_truthy. intros Hx%negb_false_iff%orb_prop. eauto 6.
    + case_decide; [subst; tauto | done].
  - intros [[->| [->| ->]] | [-> | (x & -> & Hx)]]; try done.
    cbn. unfold number_truthy. apply negb_false_iff, orb_true_iff. done.
Qed.

Section NormaliserProperties.
Context `{JsRuntime}.

Lemma processRow_amount_null (row : gmap string JsValue) :
  amount (processRow row) = None <-> truthy (get row "amount") = false.
Proof. unfold processRow. cbn [amount]. by destruct (truthy _). Qed.

Lemma processRow_amount_parsed (row : gmap string JsValue) :
  truthy (get row "amount") = true ->
  amount (processRow row) = Some (parseFloat (get row "amount")).
Proof. unfold processRow. cbn [amount]. by intros ->. Qed.

(** C2 (the code departs from the claim here).  The claim: a raw amount
    that is present is stored as its parsed number, and null is stored only
    for an absent one.  The row of the CSV line [TX1,0] has an amount cell
    that is present, the number zero, and [processRow] stores null for it:
    the test [row.amount ? _ : null] takes every falsy cell for a missing
    one. *)
Theorem zero_amount_stored_as_null :
  get zero_amount_row "amount" = JsNumber 0 /\
  amount (processRow zero_amount_row) = None.
Proof.
  assert (get zero_amount_row "amount" = JsNumber 0) as E by reflexivity.
  split; [done|]. apply processRow_amount_null. by rewrite E.
Qed.

(** C8, as amended.  When the headers of an uploaded file lack
    transaction_reference, the upload ends with an error message on that
    side and nothing else of the state changes: no record of the file is
    stored, and the data and the error of the other side are as before.
    When moreover the parse reported no error, the message is the one that
    names the missing column. *)
Theorem missing_reference_header_rejected
    (st : State) (file : File) (type : UploadType) (results : ParseResults) :
  "transaction_reference" ∉ default [] (meta_fields results) ->
  exists msg : string,
    handleFileUpload (Some file) type (parse_complete results) st
      = setUploadErrors (UploadErrors.set type (Some msg)) st /\
    (errors results = [] ->
       msg = "Missing required columns: transaction_reference") /\
    internalData (handleFileUpload (Some file) type (parse_complete results) st)
      = internalData st /\
    providerData (handleFileUpload (Some file) type (parse_complete results) st)
      = providerData st /\
    UploadErrors.lookup (other type)
      (uploadErrors (handleFileUpload (Some file) type (parse_complete results) st))
      = UploadErrors.lookup (other type) (uploadErrors st).
Proof.
  intros Hmissing. unfold handleFileUpload, onComplete.
  destruct (errors results) as [|e es] eqn:He;
    [rewrite (missing_header_filter _ Hmissing); cbn [join]|];
    (eexists; split;
      [rewrite setUploadErrors_twice; unfold setUploadErrors; cbn;
       by rewrite set_set
      |split; [done|]; cbn; by rewrite !lookup_set_other]).
Qed.

(** C10.  A status cell that is not empty but holds white space only is
    stored as the empty string, not as null; and a matched pair with the
    empty string as status on either side keeps statusMatch true and is not
    pushed on statusMismatches, whatever the other status is. *)
Theorem whitespace_status_is_empty_and_unchecked :
  (forall (row : gmap string JsValue) (s : string),
     get row "status" = JsString s -> s <> "" -> all_ws s = true ->
     status (processRow row) = Some "") /\
  (forall (I P : list Row) (m : MatchResult),
     m ∈ matched (reconcile I P) ->
     status (internal m) = Some "" \/ status (provider m) = Some "" ->
     statusMatch m = true /\ m ∉ statusMismatches (reconcile I P)).
Proof.
  split.
  - intros row s Hs Hne Hws. unfold processRow. cbn [status]. rewrite Hs.
    cbn [truthy String_of]. rewrite decide_False by done.
    by rewrite (toLowerCase_all_ws s Hws), (trim_all_ws s Hws).
  - intros I P m Hm Hside.
    assert (statusMatch m = true) as Hflag.
    { destruct (matched_flags _ _ _ Hm) as [_ ->]. by apply checkStatus_empty. }
    split; [done|]. rewrite statusMismatches_spec. intros [_ ?]. congruence.
Qed.
End NormaliserProperties.

Lemma missing_reference_header_rejected_witness :
  exists msg : string,
    @handleFileUpload text_runtime (Some (mkFile "provider.csv")) type_provider
        (parse_complete no_reference_parse) initialState
      = setUploadErrors (UploadErrors.set type_provider (Some msg)) initialState /\
    (errors no_reference_parse = [] ->
       msg = "Missing required columns: transaction_reference") /\
    internalData (@handleFileUpload text_runtime (Some (mkFile "provider.csv"))
        type_provider (parse_complete no_reference_parse) initialState)
      = internalData initialState /\
    providerData (@handleFileUpload text_runtime (Some (mkFile "provider.csv"))
        type_provider (parse_complete no_reference_parse) initialState)
      = providerData initialState /\
    UploadErrors.lookup (other type_provider)
      (uploadErrors (@handleFileUpload text_runtime (Some (mkFile "provider.csv"))
        type_provider (parse_complete no_reference_parse) initialState))
      = UploadErrors.lookup (other type_provider) (uploadErrors initialState).
Proof.
  apply (@missing_reference_header_rejected text_runtime).
  apply (bool_decide_unpack _). vm_compute. exact I.
Defined.

(** The claim C8 as it stands fails on a file that lacks the header and
    whose parse reported an error: the check of [results.errors] comes
    first, and its message does not name the column. *)
Lemma parse_error_hides_missing_header :
  ("transaction_reference" ∉ default [] (meta_fields single_column_parse)) /\
  UploadErrors.lookup type_internal
    (uploadErrors (@handleFileUpload text_runtime (Some (mkFile "ids.csv"))
                     type_internal (parse_complete single_column_parse)
                     initialState))
  = Some "CSV parsing error: Unable to auto-detect delimiting character; defaulted to ','" /\
  String.index 0 "transaction_reference"
    "CSV parsing error: Unable to auto-detect delimiting character; defaulted to ','"
  = None.
Proof.
  split; [|split; reflexivity].
  apply (bool_decide_unpack _). vm_compute. exact I.
Qed.

Lemma whitespace_status_witness :
  status (@processRow text_runtime blank_status_row) = Some "".
Proof.
  apply (proj1 (@whitespace_status_is_empty_and_unchecked text_runtime)
           blank_status_row "  "); reflexivity || (vm_compute; discriminate).
Defined.

(** The normaliser on [sample_rows]: the reference is trimmed, the status
    trimmed and lowered, the missing amount is null, and the rows left
    without a reference are dropped. *)
Example processedData_sample :
  @processedData text_runtime sample_rows
  = [ {| transaction_reference := "TX1"; amount := None;
         status := Some "paid"; columns := ∅ |} ].
Proof. reflexivity. Qed.

(** A file with the reference header, parsed without errors, replaces the
    data of its side and leaves the other side alone. *)
Example upload_stores_processedData :
  @handleFileUpload text_runtime (Some (mkFile "internal.csv")) type_internal
     (parse_complete {| data := sample_rows; errors := [];
                        meta_fields := Some ["transaction_reference"; "status"] |})
     (loaded [] [record "B" None None])
  = loaded [record "TX1" None (Some "paid")] [record "B" None None].
Proof. reflexivity. Qed.

(** White space outside ASCII is white space: a status of no-break and
    ideographic spaces is stored as the empty string, a reference padded
    with them is stored bare, and a row whose reference is nothing else is
    dropped. *)
Example unicode_white_space :
  status (@processRow text_runtime
            {[ "transaction_reference" := JsString "TX1";
               "status" := JsString (nbsp ++ ideographic_space) ]}) = Some "" /\
  transaction_reference
    (@processRow text_runtime
       {[ "transaction_reference" :=
            JsString (nbsp ++ "TX1" ++ ideographic_space) ]}) = "TX1" /\
  @processedData text_runtime
    [ {[ "transaction_reference" := JsString nbsp ]} ] = [].
Proof. repeat split; reflexivity. Qed.

(** ** The engine *)

(** C7.  With both inputs non-empty the run stores a result whose summary
    satisfies matchedCount + internalOnlyCount = totalInternal, and
    totalInternal is the length of the internal input. *)
Theorem matched_and_internalOnly_cover_internal (st : State) :
  internalData st <> [] -> providerData st <> [] ->
  exists r, reconciliationResults (performReconciliation st) = Some r /\
    matchedCount (summary r) + internalOnlyCount (summary r)
      = totalInternal (summary r) /\
    totalInternal (summary r) = length (internalData st).
Proof.
  intros HI HP. stored_result HI HP. rewrite reconcile_summary.
  cbn [totalInternal matchedCount internalOnlyCount].
  rewrite reconcile_matched, reconcile_internalOnly, length_matches.
  split; [|done].
  pose proof (length_one_sided (internalData st) (providerData st)). lia.
Qed.

Lemma matched_and_internalOnly_cover_internal_witness :
  exists r, reconciliationResults (performReconciliation duplicate_internal) = Some r /\
    matchedCount (summary r) + internalOnlyCount (summary r)
      = totalInternal (summary r) /\
    totalInternal (summary r) = length (internalData duplicate_internal).
Proof.
  apply (matched_and_internalOnly_cover_internal duplicate_internal);
    vm_compute; discriminate.
Defined.

(** C1, as amended.  With both inputs non-empty, and no reference that
    occurs on both sides occurring twice within a side, the run stores a
    result whose summary satisfies matchedCount + providerOnlyCount =
    totalProvider, and totalProvider is the length of the provider input. *)
Theorem matched_and_providerOnly_cover_provider (st : State) :
  internalData st <> [] -> providerData st <> [] ->
  shared_references_unique (internalData st) (providerData st) ->
  exists r, reconciliationResults (performReconciliation st) = Some r /\
    matchedCount (summary r) + providerOnlyCount (summary r)
      = totalProvider (summary r) /\
    totalProvider (summary r) = length (providerData st).
Proof.
  intros HI HP [Hi Hp]. stored_result HI HP. rewrite reconcile_summary.
  cbn [totalProvider matchedCount providerOnlyCount].
  rewrite reconcile_matched, reconcile_providerOnly, length_matches.
  split; [|done]. rewrite (shared_sym_length _ _ Hi Hp).
  pose proof (length_one_sided (providerData st) (internalData st)). lia.
Qed.

Lemma matched_and_providerOnly_cover_provider_witness :
  exists r, reconciliationResults
              (performReconciliation (amounts (Some 100%float) (Some 100.005%float)))
            = Some r /\
    matchedCount (summary r) + providerOnlyCount (summary r)
      = totalProvider (summary r) /\
    totalProvider (summary r)
      = length (providerData (amounts (Some 100%float) (Some 100.005%float))).
Proof.
  apply (matched_and_providerOnly_cover_provider
           (amounts (Some 100%float) (Some 100.005%float)));
    [vm_compute; discriminate | vm_compute; discriminate |].
  split; apply (bool_decide_unpack _); vm_compute; exact I.
Defined.

(** The claim C1 as it stands fails when a reference is repeated: two
    internal rows with reference A against one provider row give two
    matches, no provider-only record, and a provider total of one. *)
Lemma duplicate_reference_breaks_provider_count :
  exists r, reconciliationResults (performReconciliation duplicate_internal) = Some r /\
    matchedCount (summary r) = 2 /\ providerOnlyCount (summary r) = 0 /\
    totalProvider (summary r) = 1 /\
    totalProvider (summary r) = length (providerData duplicate_internal) /\
    matchedCount (summary r) + providerOnlyCount (summary r)
      <> totalProvider (summary r).
Proof.
  eexists. split; [reflexivity|]. vm_compute. repeat split; lia.
Qed.

(** C9.  When the internal data or the provider data is empty,
    [performReconciliation] returns the state it was given: the stored
    results, the flags and everything else are untouched, in the component
    and in its older copy alike. *)
Theorem performReconciliation_empty_noop (st : State) :
  internalData st = [] \/ providerData st = [] ->
  performReconciliation st = st /\ performReconciliation_sync st = st.
Proof.
  unfold performReconciliation, performReconciliation_sync.
  intros [-> | ->]; cbn [length Nat.eqb orb]; [done|]. by rewrite orb_true_r.
Qed.

Lemma performReconciliation_empty_noop_witness :
  performReconciliation (loaded [record "A" None None] [])
    = loaded [record "A" None None] [] /\
  performReconciliation_sync (loaded [record "A" None None] [])
    = loaded [record "A" None None] [].
Proof.
  apply (performReconciliation_empty_noop (loaded [record "A" None None] [])).
  right. reflexivity.
Defined.

Lemma pairs_of_matches (I P : list Row) :
  (fun m => (internal m, provider m)) <$> omap (matchFor P) I =
  omap (fun r => pair r <$> last_with_reference (transaction_reference r) P) I.
Proof.
  induction I as [|r l IH]; [done|]. cbn [omap list_omap]. unfold matchFor at 1.
  destruct (last_with_reference (transaction_reference r) P) as [p|];
    cbn; by rewrite IH.
Qed.

(** C3.  Each lookup map holds, for a reference, the last record of its
    side that carries it.  The first loop still visits every internal
    record: reading off the two records of each match, the matched list is
    the internal input, in order, with each record whose reference occurs
    on the provider side paired with the last provider record of that
    reference.  So every such internal record, earlier duplicates
    included, has a match that holds it together with that one provider
    record, and is not reported as internal-only; and two matches whose
    internal records share a reference hold the same provider record. *)
Theorem duplicate_references_last_write_wins :
  (forall (data : list Row) (k : string),
     buildMap data !! k = last_with_reference k data) /\
  (forall I P : list Row, matched (reconcile I P) = omap (matchFor P) I) /\
  (forall I P : list Row,
     (fun m => (internal m, provider m)) <$> matched (reconcile I P) =
     omap (fun r => pair r <$>
                      last_with_reference (transaction_reference r) P) I) /\
  (forall (I P : list Row) (r : Row),
     r ∈ I -> transaction_reference r ∈ references P ->
     exists p m, last_with_reference (transaction_reference r) P = Some p /\
                 m ∈ matched (reconcile I P) /\
                 internal m = r /\ provider m = p /\
                 r ∉ internalOnly (reconcile I P)) /\
  (forall (I P : list Row) (m1 m2 : MatchResult),
     m1 ∈ matched (reconcile I P) -> m2 ∈ matched (reconcile I P) ->
     transaction_reference (internal m1) = transaction_reference (internal m2) ->
     provider m1 = provider m2).
Proof.
  split; [apply buildMap_lookup|]. split; [apply reconcile_matched|].
  split; [intros I P; rewrite reconcile_matched; apply pairs_of_matches|].
  split.
  - intros I P r Hr Hk.
    apply last_with_reference_is_Some in Hk as Hp. destruct Hp as [p Hp].
    exists p, (matchResultOf r p). split; [done|]. split; [|split; [done|split; [done|]]].
    + apply matched_inv. eauto.
    + rewrite reconcile_internalOnly, list_elem_of_filter. tauto.
  - intros I P m1 m2 (r1 & p1 & _ & Hp1 & ->)%matched_inv
      (r2 & p2 & _ & Hp2 & ->)%matched_inv. cbn. intros E.
    rewrite E in Hp1. congruence.
Qed.

Lemma duplicate_references_last_write_wins_witness :
  exists p m,
    last_with_reference "A" (providerData duplicate_internal) = Some p /\
    m ∈ matched (reconcile (internalData duplicate_internal)
                           (providerData duplicate_internal)) /\
    internal m = record "A" (Some 100%float) (Some "paid") /\
    provider m = p /\
    record "A" (Some 100%float) (Some "paid")
      ∉ internalOnly (reconcile (internalData duplicate_internal)
                                (providerData duplicate_internal)).
Proof.
  apply (proj1 (proj2 (proj2 (proj2 duplicate_references_last_write_wins)))
           (internalData duplicate_internal) (providerData duplicate_internal)
           (record "A" (Some 100%float) (Some "paid"))).
  - apply list_elem_of_here.
  - apply list_elem_of_here.
Defined.

(** The scenario of the specification: both internal rows with reference A
    are matched, against the same provider row. *)
Example duplicate_internal_matches :
  matched (reconcile (internalData duplicate_internal)
                     (providerData duplicate_internal)) =
  [ matchResultOf (record "A" (Some 100%float) (Some "paid"))
                  (record "A" (Some 100%float) (Some "paid"));
    matchResultOf (record "A" (Some 250%float) (Some "paid"))
                  (record "A" (Some 100%float) (Some "paid")) ].
Proof. reflexivity. Qed.

(** C4.  For a matched pair with both amounts not null, amountMatch is
    false exactly when the computed difference [Math.abs(a - b)] is
    greater than 0.01; a difference equal to 0.01 is a match and a
    difference equal to 0.0100001 is a mismatch. *)
Theorem amount_tolerance (I P : list Row) (m : MatchResult) (a b : float) :
  m ∈ matched (reconcile I P) ->
  amount (internal m) = Some a -> amount (provider m) = Some b ->
  (amountMatch m = false <-> (0.01 <? abs (a - b))%float = true) /\
  (abs (a - b) = 0.01%float -> amountMatch m = true) /\
  (abs (a - b) = 0.0100001%float -> amountMatch m = false).
Proof.
  intros Hm Ha Hb. destruct (matched_flags _ _ _ Hm) as [-> _].
  rewrite (checkAmount_spec _ _ a b Ha Hb). split; [|split].
  - by destruct (_ <? _)%float.
  - by intros ->.
  - by intros ->.
Qed.

Lemma amount_tolerance_witness :
  (amountMatch (matchResultOf (record "A" (Some 0.01%float) None)
                              (record "A" (Some 0%float) None)) = false <->
   (0.01 <? abs (0.01 - 0))%float = true) /\
  (abs (0.01 - 0) = 0.01%float ->
   amountMatch (matchResultOf (record "A" (Some 0.01%float) None)
                              (record "A" (Some 0%float) None)) = true) /\
  (abs (0.01 - 0) = 0.0100001%float ->
   amountMatch (matchResultOf (record "A" (Some 0.01%float) None)
                              (record "A" (Some 0%float) None)) = false).
Proof.
  apply (amount_tolerance [record "A" (Some 0.01%float) None]
                          [record "A" (Some 0%float) None]).
  - vm_compute. apply list_elem_of_here.
  - reflexivity.
  - reflexivity.
Defined.

(** The boundary on concrete amounts: 0.01 against 0 is a match, 0.0100001
    against 0 is a mismatch, and the scenario of the specification, 100.00
    against 100.005, is a match. *)
Example amount_boundary :
  checkAmount (record "A" (Some 0.01%float) None)
              (record "A" (Some 0%float) None) = true /\
  checkAmount (record "A" (Some 0.0100001%float) None)
              (record "A" (Some 0%float) None) = false /\
  checkAmount (record "A" (Some 100%float) None)
              (record "A" (Some 100.005%float) None) = true.
Proof. repeat split; reflexivity. Qed.

(** The difference is the one the machine computes: 100.01 - 100 is a
    little more than 0.01 in binary64, and the pair is flagged. *)
Example cent_apart_is_flagged :
  checkAmount (record "A" (Some 100.01%float) None)
              (record "A" (Some 100%float) None) = false.
Proof. reflexivity. Qed.

(** C5.  With both inputs non-empty the run stores a result, also when
    amounts are NaN; and in it a matched pair with a NaN amount on either
    side has amountMatch true and is not on amountMismatches, since
    [NaN > 0.01] is false. *)
Theorem nan_amount_never_flagged (st : State) :
  internalData st <> [] -> providerData st <> [] ->
  exists r, reconciliationResults (performReconciliation st) = Some r /\
    forall (m : MatchResult) (x : float),
      m ∈ matched r -> isNaN x = true ->
      amount (internal m) = Some x \/ amount (provider m) = Some x ->
      amountMatch m = true /\ m ∉ amountMismatches r.
Proof.
  intros HI HP. stored_result HI HP. intros m x Hm Hx Hside.
  assert (amountMatch m = true) as Hflag.
  { destruct (matched_flags _ _ _ Hm) as [-> _]. by apply (checkAmount_NaN _ _ x). }
  split; [done|]. rewrite amountMismatches_spec. intros [_ ?]. congruence.
Qed.

Lemma nan_amount_never_flagged_witness :
  exists r, reconciliationResults
              (performReconciliation (amounts (Some nan) (Some 100%float))) = Some r /\
    forall (m : MatchResult) (x : float),
      m ∈ matched r -> isNaN x = true ->
      amount (internal m) = Some x \/ amount (provider m) = Some x ->
      amountMatch m = true /\ m ∉ amountMismatches r.
Proof.
  apply (nan_amount_never_flagged (amounts (Some nan) (Some 100%float)));
    vm_compute; discriminate.
Defined.

(** A NaN amount against 100: one match, no amount mismatch. *)
Example nan_against_number :
  matched (reconcile [record "A" (Some nan) None] [record "A" (Some 100%float) None])
    = [ {| match_reference := "A";
           internal := record "A" (Some nan) None;
           provider := record "A" (Some 100%float) None;
           amountMatch := true; statusMatch := true |} ] /\
  amountMismatches
    (reconcile [record "A" (Some nan) None] [record "A" (Some 100%float) None]) = [].
Proof. split; reflexivity. Qed.

(** C6.  For a matched pair, a null amount on either side leaves
    amountMatch true and a null status on either side leaves statusMatch
    true, whatever the other side holds. *)
Theorem null_side_never_flagged (I P : list Row) (m : MatchResult) :
  m ∈ matched (reconcile I P) ->
  (amount (internal m) = None \/ amount (provider m) = None ->
   amountMatch m = true) /\
  (status (internal m) = None \/ status (provider m) = None ->
   statusMatch m = true).
Proof.
  intros Hm. destruct (matched_flags _ _ _ Hm) as [-> ->].
  split; [apply checkAmount_null | apply checkStatus_null].
Qed.

Lemma null_side_never_flagged_witness :
  amountMatch (matchResultOf (record "A" None None)
                             (record "A" (Some 5%float) (Some "paid"))) = true /\
  statusMatch (matchResultOf (record "A" None None)
                             (record "A" (Some 5%float) (Some "paid"))) = true.
Proof.
  destruct (null_side_never_flagged
              [record "A" None None]
              [record "A" (Some 5%float) (Some "paid")]
              (matchResultOf (record "A" None None)
                             (record "A" (Some 5%float) (Some "paid"))))
    as [Ha Hs].
  - vm_compute. apply list_elem_of_here.
  - split; [apply Ha | apply Hs]; left; reflexivity.
Defined.

(** * Further properties of the engine *)

Lemma last_with_reference_Some (data : list Row) (k : string) (p : Row) :
  last_with_reference k data = Some p ->
  p ∈ data /\ transaction_reference p = k.
Proof.
  unfold last_with_reference, with_reference. intros Hp.
  apply last_Some_elem_of, list_elem_of_filter in Hp. tauto.
Qed.

Lemma internal_of_matches (I P : list Row) :
  internal <$> omap (matchFor P) I =
  filter (fun r => transaction_reference r ∈ references P) I.
Proof.
  induction I as [|r l IH]; [done|].
  rewrite filter_cons. cbn [omap list_omap].
  destruct (matchFor P r) as [m|] eqn:E.
  - rewrite decide_True by (apply matchFor_is_Some; rewrite E; eauto).
    rewrite fmap_cons. f_equal; [|done].
    unfold matchFor in E. apply fmap_Some in E as (p & _ & ->). done.
  - rewrite decide_False; [done|].
    intros Hin%matchFor_is_Some. rewrite E in Hin. by destruct Hin.
Qed.

Lemma filter_all {A} (P : A -> Prop) `{!forall x, Decision (P x)} (l : list A) :
  (forall x, x ∈ l -> P x) -> filter P l = l.
Proof.
  induction l as [|x l IH]; intros Hl; [done|].
  rewrite filter_cons_True by (apply Hl; left).
  f_equal. apply IH. intros y Hy. apply Hl. by right.
Qed.

Lemma filter_none {A} (P : A -> Prop) `{!forall x, Decision (P x)} (l : list A) :
  (forall x, x ∈ l -> ~ P x) -> filter P l = [].
Proof.
  induction l as [|x l IH]; intros Hl; [done|].
  rewrite filter_cons_False by (apply Hl; left).
  apply IH. intros y Hy. apply Hl. by right.
Qed.

Lemma reference_elem_of (data : list Row) (r : Row) :
  r ∈ data -> transaction_reference r ∈ references data.
Proof. intros Hr. apply list_elem_of_fmap. eauto. Qed.

(** X1.  The matches follow the internal input: their internal records are
    the internal records whose reference occurs on the provider side, in
    input order, and internalOnly is the rest, in input order. *)
Theorem matched_follows_internal_order (I P : list Row) :
  internal <$> matched (reconcile I P) =
    filter (fun r => transaction_reference r ∈ references P) I /\
  internalOnly (reconcile I P) =
    filter (fun r => transaction_reference r ∉ references P) I.
Proof.
  rewrite reconcile_matched, reconcile_internalOnly, internal_of_matches. done.
Qed.

(** X2.  A record is reported provider-only exactly when it is a provider
    record whose reference occurs nowhere on the internal side; the list
    keeps the provider input order. *)
Theorem providerOnly_characterised (I P : list Row) (p : Row) :
  (p ∈ providerOnly (reconcile I P) <->
   p ∈ P /\ transaction_reference p ∉ references I) /\
  providerOnly (reconcile I P) `sublist_of` P.
Proof.
  rewrite reconcile_providerOnly, list_elem_of_filter. split; [tauto|].
  apply sublist_filter.
Qed.

(** X3.  When the two sides share no reference, nothing is matched or
    flagged and the two one-sided lists are the two inputs. *)
Theorem disjoint_references_nothing_matched (I P : list Row) :
  (forall k, k ∈ references I -> k ∉ references P) ->
  matched (reconcile I P) = [] /\
  internalOnly (reconcile I P) = I /\
  providerOnly (reconcile I P) = P /\
  amountMismatches (reconcile I P) = [] /\
  statusMismatches (reconcile I P) = [].
Proof.
  intros Hdisj.
  assert (matched (reconcile I P) = []) as Hm.
  { apply (fmap_nil_inv internal).
    rewrite reconcile_matched, internal_of_matches.
    apply filter_none. intros r Hr Hin.
    by apply (Hdisj (transaction_reference r)); [apply reference_elem_of|]. }
  rewrite reconcile_amountMismatches, reconcile_statusMismatches, Hm.
  rewrite reconcile_internalOnly, reconcile_providerOnly.
  repeat split; try done.
  - apply filter_all. intros r Hr. by apply Hdisj, reference_elem_of.
  - apply filter_all. intros r Hr Hin.
    by apply (Hdisj (transaction_reference r)); [|apply reference_elem_of].
Qed.

Lemma disjoint_references_nothing_matched_witness :
  matched (reconcile [record "A" (Some 100%float) None]
                     [record "B" (Some 50%float) None]) = [] /\
  internalOnly (reconcile [record "A" (Some 100%float) None]
                          [record "B" (Some 50%float) None])
    = [record "A" (Some 100%float) None] /\
  providerOnly (reconcile [record "A" (Some 100%float) None]
                          [record "B" (Some 50%float) None])
    = [record "B" (Some 50%float) None] /\
  amountMismatches (reconcile [record "A" (Some 100%float) None]
                              [record "B" (Some 50%float) None]) = [] /\
  statusMismatches (reconcile [record "A" (Some 100%float) None]
                              [record "B" (Some 50%float) None]) = [].
Proof.
  apply (disjoint_references_nothing_matched
           [record "A" (Some 100%float) None] [record "B" (Some 50%float) None]).
  intros k Hk Hin. cbn in Hk, Hin.
  apply list_elem_of_singleton in Hk. apply list_elem_of_singleton in Hin.
  subst k. discriminate Hin.
Defined.

(** X4.  Swapping the two files swaps the two one-sided lists. *)
Theorem swapping_sides_swaps_one_sided (I P : list Row) :
  internalOnly (reconcile P I) = providerOnly (reconcile I P) /\
  providerOnly (reconcile P I) = internalOnly (reconcile I P).
Proof.
  by rewrite !reconcile_internalOnly, !reconcile_providerOnly.
Qed.

(** X5.  A match pairs records of the two inputs that carry the same
    reference, the one the match is labelled with, and its provider record
    is the last provider record of that reference. *)
Theorem match_pairs_share_reference (I P : list Row) (m : MatchResult) :
  m ∈ matched (reconcile I P) ->
  internal m ∈ I /\ provider m ∈ P /\
  match_reference m = transaction_reference (internal m) /\
  transaction_reference (provider m) = transaction_reference (internal m) /\
  last_with_reference (match_reference m) P = Some (provider m).
Proof.
  intros (r & p & Hr & Hp & ->)%matched_inv. cbn.
  destruct (last_with_reference_Some _ _ _ Hp) as [? ?]. done.
Qed.

Lemma match_pairs_share_reference_witness :
  internal (matchResultOf (record "A" None None) (record "A" None (Some "paid")))
    ∈ [record "A" None None] /\
  provider (matchResultOf (record "A" None None) (record "A" None (Some "paid")))
    ∈ [record "A" None (Some "paid")] /\
  match_reference
    (matchResultOf (record "A" None None) (record "A" None (Some "paid")))
  = transaction_reference
      (internal (matchResultOf (record "A" None None)
                               (record "A" None (Some "paid")))) /\
  transaction_reference
    (provider (matchResultOf (record "A" None None)
                             (record "A" None (Some "paid"))))
  = transaction_reference
      (internal (matchResultOf (record "A" None None)
                               (record "A" None (Some "paid")))) /\
  last_with_reference
    (match_reference
       (matchResultOf (record "A" None None) (record "A" None (Some "paid"))))
    [record "A" None (Some "paid")]
  = Some (provider (matchResultOf (record "A" None None)
                                  (record "A" None (Some "paid")))).
Proof.
  apply (match_pairs_share_reference
           [record "A" None None] [record "A" None (Some "paid")]).
  vm_compute. apply list_elem_of_here.
Defined.

(** X6.  The two mismatch lists are the matches whose flag is false, in
    the order of the matched list, so neither count exceeds the number of
    matches. *)
Theorem mismatches_are_flagged_matches (I P : list Row) :
  amountMismatches (reconcile I P) =
    filter (fun m => amountMatch m = false) (matched (reconcile I P)) /\
  statusMismatches (reconcile I P) =
    filter (fun m => statusMatch m = false) (matched (reconcile I P)) /\
  amountMismatchCount (summary (reconcile I P))
    <= matchedCount (summary (reconcile I P)) /\
  statusMismatchCount (summary (reconcile I P))
    <= matchedCount (summary (reconcile I P)).
Proof.
  rewrite reconcile_summary.
  cbn [amountMismatchCount statusMismatchCount matchedCount].
  rewrite reconcile_amountMismatches, reconcile_statusMismatches.
  repeat split; try done; apply length_filter.
Qed.

(** X7.  A provider record whose reference is matched, but which is not
    the last provider record of that reference, appears nowhere in the
    result: it is not provider-only and no match holds it. *)
Theorem shadowed_provider_record_is_dropped (I P : list Row) (p : Row) :
  p ∈ P -> transaction_reference p ∈ references I ->
  last_with_reference (transaction_reference p) P <> Some p ->
  (p ∉ providerOnly (reconcile I P)) /\
  forall m, m ∈ matched (reconcile I P) -> provider m <> p.
Proof.
  intros Hp Hk Hlast. split.
  - rewrite reconcile_providerOnly, list_elem_of_filter. tauto.
  - intros m (r & q & _ & Hq & ->)%matched_inv Heq. cbn in Heq. subst q.
    apply Hlast. destruct (last_with_reference_Some _ _ _ Hq) as [_ E].
    rewrite E. exact Hq.
Qed.

Lemma shadowed_provider_record_is_dropped_witness :
  (record "A" (Some 100%float) (Some "pending")
     ∉ providerOnly (reconcile [record "A" (Some 100%float) (Some "paid")]
                               duplicate_provider)) /\
  forall m,
    m ∈ matched (reconcile [record "A" (Some 100%float) (Some "paid")]
                           duplicate_provider) ->
    provider m <> record "A" (Some 100%float) (Some "pending").
Proof.
  apply (shadowed_provider_record_is_dropped
           [record "A" (Some 100%float) (Some "paid")] duplicate_provider
           (record "A" (Some 100%float) (Some "pending"))).
  - apply list_elem_of_here.
  - apply list_elem_of_here.
  - vm_compute. intros E. discriminate E.
Defined.

(** X8.  A match has statusMatch false exactly when both statuses are
    present, neither is the empty string, and they differ. *)
Theorem status_flag_iff (I P : list Row) (m : MatchResult) :
  m ∈ matched (reconcile I P) ->
  (statusMatch m = false <->
   exists s t, status (internal m) = Some s /\ status (provider m) = Some t /\
               s <> "" /\ t <> "" /\ s <> t).
Proof.
  intros Hm. destruct (matched_flags _ _ _ Hm) as [_ ->].
  unfold checkStatus, truthy. split.
  - destruct (status (internal m)) as [s|], (status (provider m)) as [t|];
      try done.
    repeat case_decide; try done. intros _. by exists s, t.
  - intros (s & t & -> & -> & Hs & Ht & Hst).
    by rewrite !decide_False by done.
Qed.

Lemma status_flag_iff_witness :
  statusMatch (matchResultOf (record "A" None (Some "paid"))
                             (record "A" None (Some "pending"))) = false <->
  exists s t,
    status (internal (matchResultOf (record "A" None (Some "paid"))
                                    (record "A" None (Some "pending")))) = Some s /\
    status (provider (matchResultOf (record "A" None (Some "paid"))
                                    (record "A" None (Some "pending")))) = Some t /\
    s <> "" /\ t <> "" /\ s <> t.
Proof.
  apply (status_flag_iff [record "A" None (Some "paid")]
                         [record "A" None (Some "pending")]).
  vm_compute. apply list_elem_of_here.
Defined.

(** ** A file against itself *)

Lemma SFsub_diag (f : spec_float) :
  SF64sub f f = S754_nan \/ SF64sub f f = S754_zero false.
Proof.
  destruct f as [[]|[]| |s m e]; cbn; auto.
  right. rewrite Z.sub_diag. done.
Qed.

Lemma ltb_abs_sub_diag (x : float) : (0.01 <? abs (x - x))%float = false.
Proof.
  rewrite FloatAxioms.ltb_spec, FloatAxioms.abs_spec, FloatAxioms.sub_spec.
  destruct (SFsub_diag (Prim2SF x)) as [-> | ->]; reflexivity.
Qed.

Lemma checkAmount_diag (r : Row) : checkAmount r r = true.
Proof.
  unfold checkAmount. destruct (amount r) as [a|]; [|done].
  cbv zeta. by rewrite ltb_abs_sub_diag.
Qed.

Lemma checkStatus_diag (r : Row) : checkStatus r r = true.
Proof.
  unfold checkStatus. destruct (status r) as [s|]; [|done].
  destruct (_ && _); [|done]. by rewrite decide_True.
Qed.

Lemma last_with_reference_NoDup (data : list Row) (r : Row) :
  NoDup (references data) -> r ∈ data ->
  last_with_reference (transaction_reference r) data = Some r.
Proof.
  unfold last_with_reference, with_reference, references.
  induction data as [|x l IH]; intros Hnd Hr; [by apply elem_of_nil in Hr|].
  rewrite fmap_cons in Hnd. apply NoDup_cons in Hnd as [Hx Hnd].
  rewrite filter_cons. apply elem_of_cons in Hr as [-> | Hr].
  - rewrite decide_True by done. rewrite last_cons.
    rewrite filter_none; [done|].
    intros y Hy Heq. apply Hx. rewrite <- Heq. by apply reference_elem_of.
  - rewrite decide_False.
    + by apply IH.
    + intros Heq. apply Hx. rewrite Heq. by apply reference_elem_of.
Qed.

Lemma self_matches (D l : list Row) :
  NoDup (references D) -> (forall r, r ∈ l -> r ∈ D) ->
  omap (matchFor D) l = (fun r => matchResultOf r r) <$> l.
Proof.
  intros Hnd. induction l as [|r l IH]; intros Hl; [done|].
  cbn [omap list_omap]. unfold matchFor at 1.
  rewrite (last_with_reference_NoDup D r Hnd) by (apply Hl; left).
  cbn. f_equal. apply IH. intros y Hy. apply Hl. by right.
Qed.

(** X9.  A file whose references are all different, reconciled against
    itself, matches every record with itself and reports nothing: no
    one-sided record and no mismatch, whatever the amounts are (NaN and
    the infinities included). *)
Theorem file_against_itself (D : list Row) :
  NoDup (references D) ->
  matched (reconcile D D) = (fun r => matchResultOf r r) <$> D /\
  internalOnly (reconcile D D) = [] /\
  providerOnly (reconcile D D) = [] /\
  amountMismatches (reconcile D D) = [] /\
  statusMismatches (reconcile D D) = [].
Proof.
  intros Hnd.
  assert (matched (reconcile D D) = (fun r => matchResultOf r r) <$> D) as Hm.
  { rewrite reconcile_matched. by apply self_matches. }
  rewrite reconcile_amountMismatches, reconcile_statusMismatches, Hm.
  rewrite reconcile_internalOnly, reconcile_providerOnly.
  repeat split; try done.
  - apply filter_none. intros r Hr Hn. by apply Hn, reference_elem_of.
  - apply filter_none. intros r Hr Hn. by apply Hn, reference_elem_of.
  - apply filter_none. intros m (r & -> & _)%list_elem_of_fmap.
    cbn. by rewrite checkAmount_diag.
  - apply filter_none. intros m (r & -> & _)%list_elem_of_fmap.
    cbn. by rewrite checkStatus_diag.
Qed.

Lemma file_against_itself_witness :
  matched (reconcile [record "A" (Some nan) (Some "paid");
                      record "B" (Some infinity) None]
                     [record "A" (Some nan) (Some "paid");
                      record "B" (Some infinity) None])
    = (fun r => matchResultOf r r) <$>
        [record "A" (Some nan) (Some "paid"); record "B" (Some infinity) None] /\
  internalOnly (reconcile [record "A" (Some nan) (Some "paid");
                           record "B" (Some infinity) None]
                          [record "A" (Some nan) (Some "paid");
                           record "B" (Some infinity) None]) = [] /\
  providerOnly (reconcile [record "A" (Some nan) (Some "paid");
                           record "B" (Some infinity) None]
                          [record "A" (Some nan) (Some "paid");
                           record "B" (Some infinity) None]) = [] /\
  amountMismatches (reconcile [record "A" (Some nan) (Some "paid");
                               record "B" (Some infinity) None]
                              [record "A" (Some nan) (Some "paid");
                               record "B" (Some infinity) None]) = [] /\
  statusMismatches (reconcile [record "A" (Some nan) (Some "paid");
                               record "B" (Some infinity) None]
                              [record "A" (Some nan) (Some "paid");
                               record "B" (Some infinity) None]) = [].
Proof.
  apply (file_against_itself
           [record "A" (Some nan) (Some "paid"); record "B" (Some infinity) None]).
  apply (bool_decide_unpack _). vm_compute. exact I.
Defined.

(** * Further properties of the normaliser *)

Lemma has_reference_iff (r : Row) :
  has_reference r = true <-> transaction_reference r <> "".
Proof. unfold has_reference. cbn. case_decide; split; done. Qed.

Section FurtherNormaliser.
Context `{JsRuntime}.

Lemma row_kept_iff (row : gmap string JsValue) :
  has_reference (processRow row) = true <->
  truthy (get row "transaction_reference") = true /\
  all_ws (String_of (get row "transaction_reference")) = false.
Proof.
  rewrite has_reference_iff. unfold processRow. cbn [transaction_reference].
  rewrite trim_empty.
  destruct (truthy (get row "transaction_reference")); cbn.
  - destruct (all_ws _); split; try done. by intros [_ ?].
  - split; [done | by intros [? _]].
Qed.

Lemma processedData_elem (data : list (gmap string JsValue)) (r : Row) :
  r ∈ processedData data <->
  exists row, row ∈ data /\ r = processRow row /\
    truthy (get row "transaction_reference") = true /\
    all_ws (String_of (get row "transaction_reference")) = false.
Proof.
  unfold processedData.
  rewrite list_elem_of_In, filter_In, in_map_iff. split.
  - intros [(row & <- & Hrow) Hkeep]. exists row.
    rewrite list_elem_of_In. by apply row_kept_iff in Hkeep as [? ?].
  - intros (row & Hrow & -> & Hkeep). split.
    + exists row. by rewrite <- list_elem_of_In.
    + by apply row_kept_iff.
Qed.

Lemma clean_processedData (data : list (gmap string JsValue)) :
  clean (processedData data).
Proof.
  intros r. unfold processedData. rewrite list_elem_of_In, filter_In.
  intros [_ Hr]. by apply has_reference_iff.
Qed.

(** X10.  The records stored for a file are the normalised rows whose
    reference cell is truthy and does not print as white space only; every
    other row is dropped without an error, so there are never more records
    than rows. *)
Theorem processedData_keeps (data : list (gmap string JsValue)) (r : Row) :
  (r ∈ processedData data <->
   exists row, row ∈ data /\ r = processRow row /\
     truthy (get row "transaction_reference") = true /\
     all_ws (String_of (get row "transaction_reference")) = false) /\
  length (processedData data) <= length data.
Proof.
  split; [apply processedData_elem|]. unfold processedData.
  etrans; [apply List.filter_length_le|]. by rewrite length_map.
Qed.

(** X11.  A stored record has a reference that is not empty and has no
    white space around it: trimming it again changes nothing. *)
Theorem stored_references_are_trimmed
    (data : list (gmap string JsValue)) (r : Row) :
  r ∈ processedData data ->
  transaction_reference r <> "" /\
  trim (transaction_reference r) = transaction_reference r.
Proof.
  intros Hr. split; [by apply (clean_processedData data)|].
  apply processedData_elem in Hr as (row & _ & -> & _).
  unfold processRow. cbn [transaction_reference]. apply trim_idem.
Qed.

(** X12.  A stored status has no white space around it: trimming it
    again changes nothing.  When the status cell is a string of ASCII
    characters and white space, the stored status holds no capital
    letter. *)
Theorem stored_status_is_normal (row : gmap string JsValue) (t : string) :
  status (processRow row) = Some t ->
  trim t = t /\
  forall x, get row "status" = JsString x -> plain x = true ->
            no_upper t = true.
Proof.
  unfold processRow. cbn [status].
  destruct (truthy (get row "status")); [|done]. intros [= <-].
  split; [apply trim_idem|]. intros x -> Hx. cbn [String_of].
  unfold toLowerCase. rewrite Hx. apply no_upper_trim, no_upper_lower.
Qed.

(** X13.  Every column of the row other than the three computed ones is
    carried over to the record with its cell unchanged. *)
Theorem other_columns_pass_through (row : gmap string JsValue) (k : string) :
  columns (processRow row) !! k =
  if decide (k ∈ ["transaction_reference"; "amount"; "status"])
  then None else row !! k.
Proof.
  unfold processRow. cbn [columns]. case_decide as Hk.
  - apply lookup_delete_None.
    destruct (decide ("transaction_reference" = k)); [by left|right].
    apply lookup_delete_None.
    destruct (decide ("amount" = k)); [by left|right].
    apply lookup_delete_None. left.
    apply elem_of_cons in Hk as [->|Hk]; [done|].
    apply elem_of_cons in Hk as [->|Hk]; [done|].
    by apply list_elem_of_singleton in Hk.
  - rewrite !lookup_delete_ne; [done|..];
      intros <-; apply Hk; repeat constructor.
Qed.

(** X14.  The amount and the status are stored as null exactly for a falsy
    cell: a missing column, an empty field, the empty string, the boolean
    false, a zero or NaN. *)
Theorem null_exactly_for_falsy_cells (row : gmap string JsValue) :
  (amount (processRow row) = None <->
   absent (get row "amount") \/ get row "amount" = JsBool false \/
   exists x, get row "amount" = JsNumber x /\
             (is_zero x = true \/ is_nan x = true)) /\
  (status (processRow row) = None <->
   absent (get row "status") \/ get row "status" = JsBool false \/
   exists x, get row "status" = JsNumber x /\
             (is_zero x = true \/ is_nan x = true)).
Proof.
  rewrite <- !truthy_false. unfold processRow. cbn [amount status].
  split; by destruct (truthy _).
Qed.
End FurtherNormaliser.

Lemma stored_references_are_trimmed_witness :
  transaction_reference (record "TX1" None (Some "paid")) <> "" /\
  trim (transaction_reference (record "TX1" None (Some "paid")))
    = transaction_reference (record "TX1" None (Some "paid")).
Proof.
  apply (@stored_references_are_trimmed text_runtime sample_rows).
  vm_compute. apply list_elem_of_here.
Defined.

Lemma stored_status_is_normal_witness :
  trim "paid" = "paid" /\
  forall x,
    get {[ "transaction_reference" := JsString "TX1";
           "status" := JsString " PAID " ]} "status" = JsString x ->
    plain x = true -> no_upper "paid" = true.
Proof.
  apply (@stored_status_is_normal text_runtime
           {[ "transaction_reference" := JsString "TX1";
              "status" := JsString " PAID " ]}).
  reflexivity.
Defined.

(** * Further properties of the handlers *)

Section FurtherHandlers.
Context `{JsRuntime}.

Lemma onComplete_accepted (f : File) (type : UploadType)
    (results : ParseResults) (st : State) :
  accepted results ->
  onComplete f type results st =
  match type with
  | type_internal => setInternal (processedData (data results)) f st
  | type_provider => setProvider (processedData (data results)) f st
  end.
Proof.
  intros [He Hh]. unfold onComplete. rewrite He. cbn.
  by rewrite bool_decide_eq_true_2.
Qed.

Lemma onComplete_rejected (f : File) (type : UploadType)
    (results : ParseResults) (st : State) :
  ~ accepted results ->
  exists msg, onComplete f type results st =
              setUploadErrors (UploadErrors.set type (Some msg)) st.
Proof.
  intros Hna. unfold onComplete.
  destruct (errors results) as [|e es] eqn:He; [|eauto].
  destruct (decide ("transaction_reference" ∈ default [] (meta_fields results)))
    as [Hin|Hnin].
  - destruct Hna. by split.
  - rewrite (missing_header_filter _ Hnin). eauto.
Qed.

Lemma onComplete_cases (f : File) (type : UploadType)
    (results : ParseResults) (st : State) :
  (exists msg, onComplete f type results st =
               setUploadErrors (UploadErrors.set type (Some msg)) st) \/
  onComplete f type results st =
    match type with
    | type_internal => setInternal (processedData (data results)) f st
    | type_provider => setProvider (processedData (data results)) f st
    end.
Proof.
  destruct (decide (accepted results)) as [Ha|Hna].
  - right. by apply onComplete_accepted.
  - left. by apply onComplete_rejected.
Qed.

(** X15.  An upload, whatever its outcome, leaves the other side alone
    (its data, its file, its error) and never touches the stored results
    or the two flags: results on display survive a new upload. *)
Theorem upload_touches_one_side_only
    (file : option File) (type : UploadType) (outcome : ParseOutcome)
    (st : State) :
  dataOf (other type) (handleFileUpload file type outcome st)
    = dataOf (other type) st /\
  fileOf (other type) (handleFileUpload file type outcome st)
    = fileOf (other type) st /\
  UploadErrors.lookup (other type)
    (uploadErrors (handleFileUpload file type outcome st))
    = UploadErrors.lookup (other type) (uploadErrors st) /\
  reconciliationResults (handleFileUpload file type outcome st)
    = reconciliationResults st /\
  isProcessing (handleFileUpload file type outcome st) = isProcessing st /\
  showResults (handleFileUpload file type outcome st) = showResults st.
Proof.
  destruct file as [f|]; [|done]. unfold handleFileUpload.
  destruct outcome as [results|error]; [|by destruct type].
  destruct (onComplete_cases f type results
              (setUploadErrors (UploadErrors.set type None) st))
    as [[msg ->] | ->]; by destruct type.
Qed.

(** X16.  A parse without errors whose headers hold
    transaction_reference replaces the data of its side by the normalised
    rows, records the file and leaves that side without an error. *)
Theorem accepted_upload_replaces_side
    (f : File) (type : UploadType) (results : ParseResults) (st : State) :
  accepted results ->
  dataOf type (handleFileUpload (Some f) type (parse_complete results) st)
    = processedData (data results) /\
  fileOf type (handleFileUpload (Some f) type (parse_complete results) st)
    = Some f /\
  UploadErrors.lookup type
    (uploadErrors (handleFileUpload (Some f) type (parse_complete results) st))
    = None.
Proof.
  intros Ha. unfold handleFileUpload. rewrite (onComplete_accepted _ _ _ _ Ha).
  by destruct type.
Qed.

(** X17.  An upload that fails (the file cannot be read, the parse reports
    an error, or the reference header is missing) sets an error on its side
    and keeps the data and the file that side had before: records of an
    earlier upload stay in place under the error. *)
Theorem failed_upload_keeps_old_data
    (f : File) (type : UploadType) (outcome : ParseOutcome) (st : State) :
  match outcome with
  | parse_complete results => ~ accepted results
  | parse_error _ => True
  end ->
  dataOf type (handleFileUpload (Some f) type outcome st) = dataOf type st /\
  fileOf type (handleFileUpload (Some f) type outcome st) = fileOf type st /\
  is_Some (UploadErrors.lookup type
             (uploadErrors (handleFileUpload (Some f) type outcome st))).
Proof.
  unfold handleFileUpload. destruct outcome as [results|error].
  - intros Hna.
    destruct (onComplete_rejected f type results
                (setUploadErrors (UploadErrors.set type None) st) Hna)
      as [msg ->].
    by destruct type.
  - intros _. by destruct type.
Qed.

(** X18.  A file that passes both checks but has no row with a usable
    reference is taken without an error and leaves its side empty; a
    reconciliation started after it does nothing. *)
Theorem upload_without_usable_rows
    (f : File) (type : UploadType) (results : ParseResults) (st : State) :
  accepted results ->
  (forall row, row ∈ data results ->
     truthy (get row "transaction_reference") = false \/
     all_ws (String_of (get row "transaction_reference")) = true) ->
  dataOf type (handleFileUpload (Some f) type (parse_complete results) st) = [] /\
  UploadErrors.lookup type
    (uploadErrors (handleFileUpload (Some f) type (parse_complete results) st))
    = None /\
  performReconciliation
    (handleFileUpload (Some f) type (parse_complete results) st)
  = handleFileUpload (Some f) type (parse_complete results) st.
Proof.
  intros Ha Hrows.
  assert (processedData (data results) = []) as Hnil.
  { destruct (processedData (data results)) as [|r l] eqn:E; [done|].
    assert (r ∈ processedData (data results)) as Hr by (rewrite E; left).
    apply processedData_elem in Hr as (row & Hrow & _ & Ht & Hw).
    destruct (Hrows row Hrow); congruence. }
  unfold handleFileUpload. rewrite (onComplete_accepted _ _ _ _ Ha), Hnil.
  unfold performReconciliation.
  destruct type; cbn; repeat split; try done. by rewrite orb_true_r.
Qed.
End FurtherHandlers.

Lemma accepted_upload_replaces_side_witness :
  dataOf type_internal
    (@handleFileUpload text_runtime (Some (mkFile "internal.csv")) type_internal
       (parse_complete (one_row_parse "TX1" "PAID ")) initialState)
    = @processedData text_runtime (data (one_row_parse "TX1" "PAID ")) /\
  fileOf type_internal
    (@handleFileUpload text_runtime (Some (mkFile "internal.csv")) type_internal
       (parse_complete (one_row_parse "TX1" "PAID ")) initialState)
    = Some (mkFile "internal.csv") /\
  UploadErrors.lookup type_internal
    (uploadErrors
       (@handleFileUpload text_runtime (Some (mkFile "internal.csv"))
          type_internal (parse_complete (one_row_parse "TX1" "PAID "))
          initialState))
    = None.
Proof.
  apply (@accepted_upload_replaces_side text_runtime).
  split; [reflexivity|]. apply (bool_decide_unpack _). vm_compute. exact I.
Defined.

Lemma failed_upload_keeps_old_data_witness :
  dataOf type_internal
    (@handleFileUpload text_runtime (Some (mkFile "ids.csv")) type_internal
       (parse_complete single_column_parse) duplicate_internal)
    = dataOf type_internal duplicate_internal /\
  fileOf type_internal
    (@handleFileUpload text_runtime (Some (mkFile "ids.csv")) type_internal
       (parse_complete single_column_parse) duplicate_internal)
    = fileOf type_internal duplicate_internal /\
  is_Some (UploadErrors.lookup type_internal
    (uploadErrors
       (@handleFileUpload text_runtime (Some (mkFile "ids.csv")) type_internal
          (parse_complete single_column_parse) duplicate_internal))).
Proof.
  apply (@failed_upload_keeps_old_data text_runtime (mkFile "ids.csv")
           type_internal (parse_complete single_column_parse) duplicate_internal).
  intros [He _]. discriminate He.
Defined.

Lemma upload_without_usable_rows_witness :
  dataOf type_provider
    (@handleFileUpload text_runtime (Some (mkFile "provider.csv")) type_provider
       (parse_complete (one_row_parse "   " "paid")) duplicate_internal) = [] /\
  UploadErrors.lookup type_provider
    (uploadErrors
       (@handleFileUpload text_runtime (Some (mkFile "provider.csv"))
          type_provider (parse_complete (one_row_parse "   " "paid"))
          duplicate_internal))
    = None /\
  performReconciliation
    (@handleFileUpload text_runtime (Some (mkFile "provider.csv")) type_provider
       (parse_complete (one_row_parse "   " "paid")) duplicate_internal)
  = @handleFileUpload text_runtime (Some (mkFile "provider.csv")) type_provider
      (parse_complete (one_row_parse "   " "paid")) duplicate_internal.
Proof.
  apply (@upload_without_usable_rows text_runtime).
  - split; [reflexivity|]. apply (bool_decide_unpack _). vm_compute. exact I.
  - intros row Hrow. cbn in Hrow. apply list_elem_of_singleton in Hrow.
    subst row. right. reflexivity.
Defined.

(** X19.  Running the reconciliation on its own outcome changes nothing,
    and a run leaves the data, the files and the upload errors as they
    were. *)
Theorem performReconciliation_idempotent (st : State) :
  performReconciliation (performReconciliation st) = performReconciliation st /\
  internalData (performReconciliation st) = internalData st /\
  providerData (performReconciliation st) = providerData st /\
  internalFile (performReconciliation st) = internalFile st /\
  providerFile (performReconciliation st) = providerFile st /\
  uploadErrors (performReconciliation st) = uploadErrors st.
Proof.
  unfold performReconciliation.
  destruct ((length (internalData st) =? 0)%nat
            || (length (providerData st) =? 0)%nat) eqn:E.
  - by rewrite E.
  - cbn. by rewrite E.
Qed.

(** * The event loop *)

Lemma filter_delete_length {A} (f : A -> bool) (l : list A) (n : nat) (x : A) :
  l !! n = Some x ->
  length (List.filter f (delete n l)) + (if f x then 1 else 0)
  = length (List.filter f l).
Proof.
  revert n. induction l as [|y l IH]; intros [|n] Hn; try done.
  - injection Hn as ->. simpl. destruct (f x); simpl; lia.
  - specialize (IH n Hn). simpl in *. destruct (f y), (f x); simpl in *; lia.
Qed.

Ltac split_ok :=
  unfold session_ok; refine (conj _ (conj _ (conj _ (conj _ _)))).

Section EventLoopProperties.
Context `{JsRuntime}.

Lemma run_app (es1 es2 : list Event) (s : Session) :
  run (es1 ++ es2) s = run es2 (run es1 s).
Proof. apply foldl_app. Qed.

Lemma fire_last_timer (u : State) (p : list (File * UploadType))
    (T : list Timer) (t : Timer) :
  handle (timer_fired (length T)) {| ui := u; parsing := p; timers := T ++ [t] |}
  = match t with
    | results_timer rowsI rowsP =>
        {| ui := setIsProcessing false
                   (setReconciliationResults (Some (reconcile rowsI rowsP)) u);
           parsing := p; timers := T ++ [reveal_timer] |}
    | reveal_timer =>
        {| ui := setShowResults true u; parsing := p; timers := T |}
    end.
Proof.
  cbn [handle timers ui parsing].
  rewrite list_lookup_middle by done. rewrite delete_middle, app_nil_r.
  by destruct t.
Qed.

Lemma fire_no_timer (s : Session) :
  handle (timer_fired (length (timers s))) s = s.
Proof.
  cbn [handle].
  by rewrite (lookup_ge_None_2 (timers s) (length (timers s))) by reflexivity.
Qed.

Lemma click_when_disabled (s : Session) :
  reconcile_disabled (ui s) = true -> handle reconcile_clicked s = s.
Proof. intros Hd. cbn [handle]. by rewrite Hd. Qed.

Lemma click_when_enabled (s : Session) :
  reconcile_disabled (ui s) = false ->
  handle reconcile_clicked s =
  {| ui := setShowResults false (setIsProcessing true (ui s));
     parsing := parsing s;
     timers := timers s ++
       [results_timer (internalData (ui s)) (providerData (ui s))] |}.
Proof.
  intros Hd. cbn [handle]. rewrite Hd. unfold reconcile_disabled in Hd.
  apply orb_false_elim in Hd as [-> _]. done.
Qed.

Lemma onComplete_isProcessing (f : File) (type : UploadType)
    (results : ParseResults) (st : State) :
  isProcessing (onComplete f type results st) = isProcessing st.
Proof.
  destruct (onComplete_cases f type results st) as [[msg ->] | ->];
    [done | by destruct type].
Qed.

(** ** The invariant *)

Lemma handle_ok (e : Event) (s : Session) :
  session_ok s -> session_ok (handle e s).
Proof.
  intros (Hrun & HI & HP & Ht & Hr).
  destruct e as [[f|] type|n outcome| | |n]; cbn [handle].
  - by split_ok.
  - by split_ok.
  - destruct (parsing s !! n) as [[f type]|]; [|by split_ok].
    destruct outcome as [results|error]; [|by split_ok].
    destruct (onComplete_cases f type results (ui s)) as [[msg ->] | ->];
      [by split_ok|].
    destruct type; split_ok; try done; apply clean_processedData.
  - destruct (reconcile_disabled (ui s)) eqn:Ed; [by split_ok|].
    unfold reconcile_disabled in Ed.
    apply orb_false_elim in Ed as [Eg Ep]. rewrite Eg.
    apply orb_false_elim in Eg as [EI EP].
    split_ok; try done.
    + unfold runs_in_flight in *. cbn. rewrite Ep in Hrun.
      rewrite List.filter_app, length_app, Hrun. done.
    + cbn. intros rowsI rowsP
        [Hin | Hin%list_elem_of_singleton]%elem_of_app; [by apply Ht|].
      injection Hin as -> ->. split; (split; [|done]).
      * by destruct (internalData (ui s)).
      * by destruct (providerData (ui s)).
  - split_ok; try done; intros r Hr'; by apply elem_of_nil in Hr'.
  - destruct (timers s !! n) as [[rowsI rowsP| ]|] eqn:En; [| |by split_ok].
    + pose proof (filter_delete_length is_results_timer _ _ _ En) as Hd.
      split_ok; try done.
      * unfold runs_in_flight in *. cbn in *.
        rewrite List.filter_app, length_app. cbn.
        destruct (isProcessing (ui s)); lia.
      * cbn. intros rowsI' rowsP'
          [Hin%list_elem_of_delete_inv | Hin%list_elem_of_singleton]%elem_of_app;
          [by apply Ht | done].
      * cbn. intros r [= <-]. exists rowsI, rowsP.
        destruct (Ht rowsI rowsP) as [? ?];
          [by eapply list_elem_of_lookup_2|]. done.
    + pose proof (filter_delete_length is_results_timer _ _ _ En) as Hd.
      split_ok; try done.
      * unfold runs_in_flight in *. cbn in *. lia.
      * cbn. intros rowsI' rowsP' Hin%list_elem_of_delete_inv. by apply Ht.
Qed.

Lemma run_ok (events : list Event) (s : Session) :
  session_ok s -> session_ok (run events s).
Proof.
  revert s. induction events as [|e es IH]; intros s Hs; [done|].
  apply IH, handle_ok, Hs.
Qed.

Lemma initialSession_ok : session_ok initialSession.
Proof.
  split_ok; try done.
  - intros r Hr. by apply elem_of_nil in Hr.
  - intros r Hr. by apply elem_of_nil in Hr.
  - intros rowsI rowsP Hin. by apply elem_of_nil in Hin.
Qed.

Lemma reachable_ok (events : list Event) : session_ok (run events initialSession).
Proof. apply run_ok, initialSession_ok. Qed.

Lemma reconcile_clean (I P : list Row) :
  clean I -> clean P ->
  (forall m, m ∈ matched (reconcile I P) -> match_reference m <> "") /\
  clean (internalOnly (reconcile I P)) /\
  clean (providerOnly (reconcile I P)).
Proof.
  intros HI HP. rewrite reconcile_internalOnly, reconcile_providerOnly.
  split; [|split].
  - intros m (r & p & Hr & _ & ->)%matched_inv. cbn. by apply HI.
  - intros r [_ Hr]%list_elem_of_filter. by apply HI.
  - intros r [_ Hr]%list_elem_of_filter. by apply HP.
Qed.

Lemma other_event_keeps_run (e : Event) (s : Session) :
  isProcessing (ui s) = true -> is_timer_event e = false ->
  isProcessing (ui (handle e s)) = true /\ timers (handle e s) = timers s.
Proof.
  intros Hp He. destruct e as [[f|] type|n outcome| | |n]; try done.
  - cbn [handle]. destruct (parsing s !! n) as [[f type]|]; [|done].
    destruct outcome; [|done]. cbn. by rewrite onComplete_isProcessing.
  - rewrite click_when_disabled; [done|].
    unfold reconcile_disabled. by rewrite Hp, orb_true_r.
Qed.

Lemma other_events_keep_run (es : list Event) (s : Session) :
  isProcessing (ui s) = true ->
  Forall (fun e => is_timer_event e = false) es ->
  isProcessing (ui (run es s)) = true /\ timers (run es s) = timers s.
Proof.
  revert s. induction es as [|e es IH]; intros s Hp Hes; [done|].
  apply Forall_cons in Hes as [He Hes].
  destruct (other_event_keeps_run e s Hp He) as [Hp' Ht'].
  destruct (IH (handle e s) Hp' Hes) as [H1 H2].
  split; [exact H1 | rewrite <- Ht'; exact H2].
Qed.

(** ** What the loop guarantees *)

(** X20.  Choosing a file and then receiving the callback of its parse
    has on the state the effect of [handleFileUpload] with that
    outcome. *)
Theorem upload_as_events
    (f : File) (type : UploadType) (outcome : ParseOutcome) (s : Session) :
  ui (run [file_chosen (Some f) type;
           parse_finished (length (parsing s)) outcome] s)
  = handleFileUpload (Some f) type outcome (ui s).
Proof.
  cbn. rewrite lookup_app_r, Nat.sub_diag by done. cbn. by destruct outcome.
Qed.

(** X21.  When no run is in progress, a click on the button followed by
    the two timers it starts has on the state the effect of
    [performReconciliation]. *)
Theorem reconciliation_as_events (s : Session) :
  isProcessing (ui s) = false ->
  ui (run [reconcile_clicked;
           timer_fired (length (timers s));
           timer_fired (length (timers s))] s)
  = performReconciliation (ui s).
Proof.
  intros Hp. unfold performReconciliation, run. cbn [foldl].
  destruct ((length (internalData (ui s)) =? 0)%nat
            || (length (providerData (ui s)) =? 0)%nat) eqn:Eg.
  - rewrite click_when_disabled by (unfold reconcile_disabled; by rewrite Eg).
    by rewrite !fire_no_timer.
  - rewrite click_when_enabled
      by (unfold reconcile_disabled; by rewrite Eg, Hp).
    by rewrite !fire_last_timer.
Qed.

(** X22.  Whatever the user does, at most one run is in flight: the
    number of pending results timers is one while isProcessing is true and
    zero while it is false. *)
Theorem one_run_in_flight (events : list Event) :
  runs_in_flight (run events initialSession)
  = if isProcessing (ui (run events initialSession)) then 1 else 0.
Proof. by destruct (reachable_ok events) as (? & _). Qed.

(** X23.  A result on display was always computed from two non-empty
    inputs: both totals of its summary are at least one, so the match rate
    [matchedCount / Math.max(totalInternal, totalProvider)] never divides
    by zero. *)
Theorem stored_results_never_degenerate (events : list Event) (r : Results) :
  reconciliationResults (ui (run events initialSession)) = Some r ->
  1 <= totalInternal (summary r) /\ 1 <= totalProvider (summary r) /\
  1 <= Nat.max (totalInternal (summary r)) (totalProvider (summary r)).
Proof.
  intros Hr. destruct (reachable_ok events) as (_ & _ & _ & _ & Hres).
  destruct (Hres r Hr) as (rowsI & rowsP & [HI _] & [HP _] & ->).
  rewrite reconcile_summary. cbn [totalInternal totalProvider].
  destruct rowsI, rowsP; try done. cbn [length]. lia.
Qed.

(** X24.  Every record the component holds or reports carries a reference
    that is not empty: the records of both sides, the matches, and the
    two one-sided lists. *)
Theorem stored_references_never_empty (events : list Event) :
  clean (internalData (ui (run events initialSession))) /\
  clean (providerData (ui (run events initialSession))) /\
  forall r, reconciliationResults (ui (run events initialSession)) = Some r ->
    (forall m, m ∈ matched r -> match_reference m <> "") /\
    clean (internalOnly r) /\ clean (providerOnly r).
Proof.
  destruct (reachable_ok events) as (_ & HI & HP & _ & Hres).
  split; [done|]. split; [done|]. intros r Hr.
  destruct (Hres r Hr) as (rowsI & rowsP & [_ HcI] & [_ HcP] & ->).
  by apply reconcile_clean.
Qed.

(** X25.  A run reports on the data of the click.  Whatever is chosen,
    parsed, clicked or reset before the results timer fires, the timer
    stays pending, and when it fires the stored result is the
    reconciliation of the two sides as they were when the button was
    clicked. *)
Theorem run_reports_data_of_the_click (es : list Event) (s : Session) :
  reconcile_disabled (ui s) = false ->
  Forall (fun e => is_timer_event e = false) es ->
  timers (run (reconcile_clicked :: es) s)
    = (timers s ++
         [results_timer (internalData (ui s)) (providerData (ui s))])%list /\
  reconciliationResults
    (ui (run (reconcile_clicked ::
                (es ++ [timer_fired (length (timers s))])%list) s))
    = Some (reconcile (internalData (ui s)) (providerData (ui s))).
Proof.
  intros Hd Hes.
  assert (timers (run (reconcile_clicked :: es) s)
    = (timers s ++
         [results_timer (internalData (ui s)) (providerData (ui s))])%list)
    as Ht.
  { change (run (reconcile_clicked :: es) s)
      with (run es (handle reconcile_clicked s)).
    rewrite (click_when_enabled s Hd).
    set (s0 := mkSession _ _ _).
    by destruct (other_events_keep_run es s0 eq_refl Hes) as [_ ->]. }
  split; [done|].
  rewrite app_comm_cons, run_app.
  destruct (run (reconcile_clicked :: es) s) as [u p T]. cbn in Ht. subst T.
  change (run [?e] ?x) with (handle e x).
  by rewrite fire_last_timer.
Qed.

(** X26.  A reset during the processing delay does not cancel the run:
    once the two timers have fired the component shows the result computed
    from the data that the reset threw away, over two empty sides. *)
Theorem reset_does_not_cancel_the_run (st : State) :
  reconcile_disabled st = false ->
  ui (run [reconcile_clicked; reset_clicked; timer_fired 0; timer_fired 0]
          (at_rest st))
  = setShowResults true
      (setReconciliationResults
         (Some (reconcile (internalData st) (providerData st))) initialState).
Proof.
  intros Hd. unfold run. cbn [foldl].
  rewrite (click_when_enabled (at_rest st) Hd). done.
Qed.
End EventLoopProperties.

Lemma reconciliation_as_events_witness :
  ui (@run text_runtime
        [reconcile_clicked;
         timer_fired (length (timers (at_rest duplicate_internal)));
         timer_fired (length (timers (at_rest duplicate_internal)))]
        (at_rest duplicate_internal))
  = performReconciliation (ui (at_rest duplicate_internal)).
Proof.
  apply (@reconciliation_as_events text_runtime (at_rest duplicate_internal)).
  reflexivity.
Defined.

Lemma stored_results_never_degenerate_witness :
  1 <= totalInternal
         (summary (reconcile [record "TX1" None (Some "paid")]
                             [record "TX1" None (Some "paid")])) /\
  1 <= totalProvider
         (summary (reconcile [record "TX1" None (Some "paid")]
                             [record "TX1" None (Some "paid")])) /\
  1 <= Nat.max
         (totalInternal
            (summary (reconcile [record "TX1" None (Some "paid")]
                                [record "TX1" None (Some "paid")])))
         (totalProvider
            (summary (reconcile [record "TX1" None (Some "paid")]
                                [record "TX1" None (Some "paid")]))).
Proof.
  apply (@stored_results_never_degenerate text_runtime sample_events).
  reflexivity.
Defined.

Lemma run_reports_data_of_the_click_witness :
  timers (@run text_runtime (reconcile_clicked :: [reset_clicked])
            (at_rest duplicate_internal))
    = (timers (at_rest duplicate_internal) ++
         [results_timer (internalData (ui (at_rest duplicate_internal)))
                        (providerData (ui (at_rest duplicate_internal)))])%list /\
  reconciliationResults
    (ui (@run text_runtime
           (reconcile_clicked ::
              ([reset_clicked] ++
               [timer_fired (length (timers (at_rest duplicate_internal)))])%list)
           (at_rest duplicate_internal)))
    = Some (reconcile (internalData (ui (at_rest duplicate_internal)))
                      (providerData (ui (at_rest duplicate_internal)))).
Proof.
  apply (@run_reports_data_of_the_click text_runtime [reset_clicked]
           (at_rest duplicate_internal)).
  - reflexivity.
  - repeat constructor.
Defined.

Lemma reset_does_not_cancel_the_run_witness :
  ui (@run text_runtime
        [reconcile_clicked; reset_clicked; timer_fired 0; timer_fired 0]
        (at_rest duplicate_internal))
  = setShowResults true
      (setReconciliationResults
         (Some (reconcile (internalData duplicate_internal)
                          (providerData duplicate_internal))) initialState).
Proof.
  apply (@reset_does_not_cancel_the_run text_runtime duplicate_internal).
  reflexivity.
Defined.

(** * The matched export and the older copy *)

Lemma count_No_amount (l : list MatchResult) :
  length (filter (fun row => amount_match row = "No") (matchedCsvData l))
  = length (filter (fun m => amountMatch m = false) l).
Proof.
  unfold matchedCsvData. induction l as [|m l IH]; [done|].
  cbn [map]. rewrite !filter_cons. cbn [amount_match matchedCsvRow].
  destruct (amountMatch m); cbn [yesNo]; repeat case_decide; try done;
    cbn [length]; by rewrite IH.
Qed.

Lemma count_No_status (l : list MatchResult) :
  length (filter (fun row => status_match row = "No") (matchedCsvData l))
  = length (filter (fun m => statusMatch m = false) l).
Proof.
  unfold matchedCsvData. induction l as [|m l IH]; [done|].
  cbn [map]. rewrite !filter_cons. cbn [status_match matchedCsvRow].
  destruct (statusMatch m); cbn [yesNo]; repeat case_decide; try done;
    cbn [length]; by rewrite IH.
Qed.

Lemma amountCell_blank (a : option float) :
  amountCell a = JsString "" <->
  a = None \/ exists x, a = Some x /\ (is_zero x = true \/ is_nan x = true).
Proof.
  unfold amountCell, number_truthy. destruct a as [x|]; [|by split; auto].
  destruct (is_zero x || is_nan x) eqn:E; cbn [negb].
  - apply orb_prop in E. split; [|done]. intros _. right. eauto.
  - apply orb_false_elim in E as [Ez En]. split; [done|].
    intros [? | (y & [= <-] & [?|?])]; congruence.
Qed.

(** X27.  The matched export agrees with the summary: it has one row per
    match, and its rows with amount_match No, and with status_match No,
    are as many as amountMismatchCount and statusMismatchCount. *)
Theorem export_agrees_with_summary (I P : list Row) :
  length (matchedCsvData (matched (reconcile I P)))
    = matchedCount (summary (reconcile I P)) /\
  length (filter (fun row => amount_match row = "No")
            (matchedCsvData (matched (reconcile I P))))
    = amountMismatchCount (summary (reconcile I P)) /\
  length (filter (fun row => status_match row = "No")
            (matchedCsvData (matched (reconcile I P))))
    = statusMismatchCount (summary (reconcile I P)).
Proof.
  rewrite count_No_amount, count_No_status, reconcile_summary.
  cbn [matchedCount amountMismatchCount statusMismatchCount].
  rewrite reconcile_amountMismatches, reconcile_statusMismatches.
  unfold matchedCsvData. by rewrite length_map.
Qed.

(** X28.  A match whose internal amount is NaN is exported with an empty
    internal_amount cell next to amount_match Yes: in the export an
    unparsable amount cannot be told from a missing one. *)
Theorem unparsable_amount_exports_blank
    (I P : list Row) (m : MatchResult) (x : float) :
  m ∈ matched (reconcile I P) ->
  amount (internal m) = Some x -> isNaN x = true ->
  internal_amount (matchedCsvRow m) = JsString "" /\
  amount_match (matchedCsvRow m) = "Yes".
Proof.
  intros Hm Hx Hnan. cbn [matchedCsvRow internal_amount amount_match]. split.
  - apply amountCell_blank. right. exists x. auto.
  - destruct (matched_flags _ _ _ Hm) as [-> _].
    rewrite (checkAmount_NaN _ _ x Hnan); [done|]. by left.
Qed.

Lemma unparsable_amount_exports_blank_witness :
  internal_amount
    (matchedCsvRow (matchResultOf (record "A" (Some nan) None)
                                  (record "A" (Some 100%float) None)))
    = JsString "" /\
  amount_match
    (matchedCsvRow (matchResultOf (record "A" (Some nan) None)
                                  (record "A" (Some 100%float) None)))
    = "Yes".
Proof.
  apply (unparsable_amount_exports_blank
           [record "A" (Some nan) None] [record "A" (Some 100%float) None]
           (matchResultOf (record "A" (Some nan) None)
                          (record "A" (Some 100%float) None)) nan).
  - vm_compute. apply list_elem_of_here.
  - reflexivity.
  - reflexivity.
Defined.

(** The two copies of the component agree: the older, synchronous
    [performReconciliation] stores the same results, clears isProcessing
    and leaves the data alone like the newer one; the newer one only adds
    the showResults flag. *)
Theorem both_copies_agree (st : State) :
  performReconciliation st =
    (if (length (internalData st) =? 0)%nat
        || (length (providerData st) =? 0)%nat
     then performReconciliation_sync st
     else setShowResults true (performReconciliation_sync st)) /\
  reconciliationResults (performReconciliation_sync st)
    = reconciliationResults (performReconciliation st) /\
  isProcessing (performReconciliation_sync st)
    = isProcessing (performReconciliation st).
Proof.
  unfold performReconciliation, performReconciliation_sync.
  by destruct ((length (internalData st) =? 0)%nat
               || (length (providerData st) =? 0)%nat).
Qed.
